(** * The voting application of [backend/app.py]

    A shallow embedding of the vote store (SQLite file or Postgres
    database), of the module start-up code that selects and initialises
    one of the two, of [insert_vote] / [get_results], and of the Flask
    views that call them.

    Conventions of the embedding.
    - A Python [str] is a [string]; each [ascii] stands for one character,
      so the texts of the model are those of the characters U+0000 to
      U+00FF. Both drivers can encode every such text; a [str] with other
      code points, among them the lone surrogates that neither driver can
      encode, is outside the model.
    - A Python value that reaches the program from a request (a form
      field, the parsed JSON body) is a [json]; Python's [None] is
      [JNull].
    - A result dictionary [{candidate: count}] is a [gmap]; its keys are
      SQL values ([None] for SQL NULL, [Some s] for text).
    - Module-level code and the views are computations in a state and
      exception monad [M]: a raised exception leaves the state as the
      last completed statement left it.
    - A table carries its rows and the next value of its id sequence.
      SQLite rolls a refused statement back, sequence included; Postgres
      keeps the sequence value that a refused statement has drawn.
    - The two database engines are reachable; a refused connection is
      outside the model. The Postgres database has the encoding UTF8, so
      the server stores every text that the driver sends. The templates
      are not part of the source: [render_template] is kept as the call
      with its arguments. What the DB-API drivers do with a parameter
      that is neither [None] nor a [str], and the grammar of Python's
      [int()], are not in the source: they are parameters of the
      development ([adapt], [py_int]). *)

From stdpp Require Import base option list strings gmap fin_maps.
From Stdlib Require Import Ascii ZArith QArith.QArith_base DecimalString Lia.

Open Scope Z_scope.

(** ** Python values coming from a request *)

#[warnings="-register-all"]
Inductive json : Type :=
  | JNull
  | JBool (b : bool)
  | JInt (z : Z)
  | JFloat (q : Q)
  | JStr (s : string)
  | JArr (items : list json)
  | JObj (members : list (string * json)).

(** [json.loads] keeps the last value of a repeated member name. *)
Fixpoint dict_get (k : string) (members : list (string * json)) : option json :=
  match members with
  | [] => None
  | (k', v) :: rest =>
      match dict_get k rest with
      | Some v' => Some v'
      | None => if decide (k' = k) then Some v else None
      end
  end.

(** Truth value of a Python object, as tested by [if x:] and [not x]. *)
Definition truthy (v : json) : bool :=
  match v with
  | JNull => false
  | JBool b => b
  | JInt z => negb (z =? 0)
  | JFloat q => negb (Qnum q =? 0)
  | JStr s => negb (String.eqb s "")
  | JArr items => match items with [] => false | _ => true end
  | JObj members => match members with [] => false | _ => true end
  end.

(** Exceptions that the program raises itself or lets through. *)
Inductive exn : Type :=
  | RuntimeError (msg : string)
  | ValueError
  | TypeError
  | AttributeError
  | KeyError
  | IntegrityError        (* NOT NULL or PRIMARY KEY constraint failed *)
  | DataError             (* Postgres: value too long for the column, or
                             the id sequence has reached its maximum *)
  | OperationalError      (* no such table (psycopg2 reports it under
                             ProgrammingError); SQLite: no ROWID is left *)
  | InterfaceError.       (* the driver cannot bind the parameter *)

Inductive outcome (A : Type) : Type :=
  | Returns (a : A)
  | Raises (e : exn).
Arguments Returns {A} a.
Arguments Raises {A} e.

(** ** The votes table *)

Inductive engine : Type := SQLite | Postgres.

Inductive id_decl : Type :=
  | INTEGER_PRIMARY_KEY_AUTOINCREMENT
  | SERIAL_PRIMARY_KEY.

Inductive text_type : Type :=
  | TEXT
  | VARCHAR (n : nat).

(** The two column definitions of a [CREATE TABLE votes] statement. *)
Record schema : Type := {
  id_column : id_decl;
  candidate_type : text_type;
  candidate_not_null : bool
}.

Record row : Type := {
  id : Z;
  candidate : option string      (* None is SQL NULL *)
}.

Record table : Type := {
  columns : schema;
  rows : list row;               (* in insertion order *)
  next_id : Z                    (* next value of the id sequence *)
}.

(** A database holds the table [votes] or does not hold it yet. *)
Abbreviation database := (option table).

Definition sqlite_votes_schema : schema :=
  {| id_column := INTEGER_PRIMARY_KEY_AUTOINCREMENT;
     candidate_type := TEXT;
     candidate_not_null := true |}.

Definition postgres_votes_schema : schema :=
  {| id_column := SERIAL_PRIMARY_KEY;
     candidate_type := VARCHAR 255;
     candidate_not_null := true |}.

Definition empty_table (sch : schema) : table :=
  {| columns := sch; rows := []; next_id := 1 |}.

(** [CREATE TABLE IF NOT EXISTS votes (...)] *)
Definition create_table_if_not_exists (sch : schema) (db : database) : database :=
  match db with
  | Some t => Some t
  | None => Some (empty_table sch)
  end.

(** psycopg2 refuses a string that holds the character NUL. *)
Fixpoint has_nul (s : string) : bool :=
  match s with
  | EmptyString => false
  | String c rest => Ascii.eqb c Ascii.zero || has_nul rest
  end.

Fixpoint all_spaces (s : string) : bool :=
  match s with
  | EmptyString => true
  | String c rest => Ascii.eqb c " "%char && all_spaces rest
  end.

(** Assignment of a text to the candidate column. SQLite keeps any text
    whatever the declared length; Postgres refuses a text longer than a
    [VARCHAR(n)] column unless the excess is all spaces, which it cuts. *)
Definition store_text (e : engine) (ty : text_type) (s : string) : outcome string :=
  match e, ty with
  | Postgres, VARCHAR n =>
      if (String.length s <=? n)%nat then Returns s
      else if all_spaces (String.substring n (String.length s - n) s)
           then Returns (String.substring 0 n s)
           else Raises DataError
  | _, _ => Returns s
  end.

(** Assignment of a bound parameter, NULL or text, to the column. *)
Definition assign_text (e : engine) (ty : text_type) (v : option string)
  : outcome (option string) :=
  match v with
  | None => Returns None
  | Some s =>
      match store_text e ty s with
      | Returns s' => Returns (Some s')
      | Raises x => Raises x
      end
  end.

(** The NOT NULL constraint of the candidate column refuses the value. *)
Definition null_refused (sch : schema) (c : option string) : bool :=
  match c with
  | None => candidate_not_null sch
  | Some _ => false
  end.

(** Largest id that the id column can hold: a ROWID is a signed 64-bit
    integer, a SERIAL column a signed 32-bit one. *)
Definition max_id (e : engine) : Z :=
  match e with
  | SQLite => 9223372036854775807
  | Postgres => 2147483647
  end.

Fixpoint largest_id (rs : list row) : Z :=
  match rs with
  | [] => 0
  | r :: rest => Z.max (id r) (largest_id rest)
  end.

Definition id_taken (i : Z) (rs : list row) : bool :=
  existsb (fun r => id r =? i) rs.

(** The table with one more row, of the given id. *)
Definition add_row (t : table) (i : Z) (c : option string) : table :=
  {| columns := columns t;
     rows := rows t ++ [{| id := i; candidate := c |}];
     next_id := i + 1 |}.

(** The table after a statement that drew an id and was then refused. *)
Definition burn_id (t : table) : table :=
  {| columns := columns t; rows := rows t; next_id := next_id t + 1 |}.

Definition append_row (t : table) (v : option string) : table :=
  add_row t (next_id t) v.

(** [INSERT INTO votes (candidate) VALUES (v)] on an existing table.
    - SQLite (AUTOINCREMENT): the new ROWID is one more than the largest
      ever used; when none is left the statement fails; then NOT NULL is
      checked. A refused statement changes nothing.
    - Postgres (SERIAL): the length of the text is checked when the
      statement is planned; then the sequence gives the id, or fails at
      its maximum; then NOT NULL and the primary key are checked, and a
      statement refused there has used up the id. *)
Definition insert_row (e : engine) (v : option string) (t : table)
  : table * outcome unit :=
  match assign_text e (candidate_type (columns t)) v with
  | Raises x => (t, Raises x)
  | Returns c =>
      match e with
      | SQLite =>
          let i := Z.max (next_id t) (largest_id (rows t) + 1) in
          if max_id SQLite <? i then (t, Raises OperationalError)
          else if null_refused (columns t) c then (t, Raises IntegrityError)
          else (add_row t i c, Returns tt)
      | Postgres =>
          if max_id Postgres <? next_id t then (t, Raises DataError)
          else if null_refused (columns t) c
               then (burn_id t, Raises IntegrityError)
          else if id_taken (next_id t) (rows t)
               then (burn_id t, Raises IntegrityError)
          else (add_row t (next_id t) c, Returns tt)
      end
  end.

(** The statement on a database, committed on success. *)
Definition sql_insert (e : engine) (v : option string) (db : database)
  : database * outcome unit :=
  match db with
  | None => (db, Raises OperationalError)
  | Some t => let '(t', r) := insert_row e v t in (Some t', r)
  end.

(** One result row per distinct candidate, counting its rows. *)
Fixpoint bump (c : option string) (acc : list (option string * Z))
  : list (option string * Z) :=
  match acc with
  | [] => [(c, 1)]
  | (k, n) :: acc' =>
      if decide (k = c) then (k, n + 1) :: acc' else (k, n) :: bump c acc'
  end.

Definition group_by_count (cands : list (option string)) : list (option string * Z) :=
  foldl (fun acc c => bump c acc) [] cands.

(** [SELECT candidate, COUNT( * ) FROM votes GROUP BY candidate] and
    [fetchall()] *)
Definition sql_select_counts (db : database) : outcome (list (option string * Z)) :=
  match db with
  | None => Raises OperationalError
  | Some t => Returns (group_by_count (candidate <$> rows t))
  end.

(** [{row[0]: row[1] for row in rows}] *)
Definition dict_of_rows (rs : list (option string * Z)) : gmap (option string) Z :=
  foldl (fun d r => <[r.1 := r.2]> d) ∅ rs.

(** ** Python operators used by the views *)

Fixpoint is_substring (needle s : string) : bool :=
  String.prefix needle s ||
  match s with
  | EmptyString => false
  | String _ rest => is_substring needle rest
  end.

Definition is_str (k : string) (v : json) : bool :=
  match v with
  | JStr s => String.eqb s k
  | _ => false
  end.

(** [k in data] for a string [k] *)
Definition py_contains (k : string) (data : json) : outcome bool :=
  match data with
  | JObj members => Returns (bool_decide (is_Some (dict_get k members)))
  | JArr items => Returns (existsb (is_str k) items)
  | JStr s => Returns (is_substring k s)
  | JNull | JBool _ | JInt _ | JFloat _ => Raises TypeError
  end.

(** [data[k]] for a string [k] *)
Definition py_getitem (data : json) (k : string) : outcome json :=
  match data with
  | JObj members =>
      match dict_get k members with
      | Some v => Returns v
      | None => Raises KeyError
      end
  | _ => Raises TypeError
  end.

(** [bool(x)] for [x] the result of [os.environ.get] *)
Definition bool_of_env (x : option string) : bool :=
  match x with
  | Some s => negb (String.eqb s "")
  | None => false
  end.

(** ** The process: module globals and the two stores *)

Record process : Type := {
  psycopg2 : bool;               (* false: the import failed, the name is None *)
  DB_HOST : option string;
  DB_PORT : Z;
  USE_POSTGRES : bool;
  votes_db : database;           (* the SQLite file DB_FILE *)
  postgres_db : database         (* the database reached through DB_HOST *)
}.

Definition M (A : Type) : Type := process -> process * outcome A.

Definition ret {A} (a : A) : M A := fun p => (p, Returns a).
Definition raise {A} (e : exn) : M A := fun p => (p, Raises e).
Definition bind {A B} (m : M A) (k : A -> M B) : M B :=
  fun p =>
    match m p with
    | (p', Returns a) => k a p'
    | (p', Raises e) => (p', Raises e)
    end.
Definition lift {A} (o : outcome A) : M A := fun p => (p, o).
Definition read {A} (f : process -> A) : M A := fun p => (p, Returns (f p)).

Declare Scope py_scope.
Delimit Scope py_scope with py.
Notation "x <- m ;; k" := (bind m (fun x => k))
  (at level 100, m at next level, right associativity) : py_scope.
Notation "m ;;; k" := (bind m (fun _ => k))
  (at level 100, right associativity) : py_scope.
Open Scope py_scope.

Definition set_votes_db (db : database) (p : process) : process :=
  {| psycopg2 := psycopg2 p; DB_HOST := DB_HOST p; DB_PORT := DB_PORT p;
     USE_POSTGRES := USE_POSTGRES p; votes_db := db; postgres_db := postgres_db p |}.

Definition set_postgres_db (db : database) (p : process) : process :=
  {| psycopg2 := psycopg2 p; DB_HOST := DB_HOST p; DB_PORT := DB_PORT p;
     USE_POSTGRES := USE_POSTGRES p; votes_db := votes_db p; postgres_db := db |}.

(** A statement run on a fresh connection to the SQLite file. *)
Definition on_sqlite {A} (stmt : database -> database * outcome A) : M A :=
  fun p => let '(db, r) := stmt (votes_db p) in (set_votes_db db p, r).

(** A statement run on a fresh [psycopg2.connect(...)] connection. *)
Definition on_postgres {A} (stmt : database -> database * outcome A) : M A :=
  fun p =>
    if psycopg2 p
    then let '(db, r) := stmt (postgres_db p) in (set_postgres_db db p, r)
    else (p, Raises AttributeError).

Definition query {A} (q : database -> outcome A) (db : database)
  : database * outcome A := (db, q db).

Definition psycopg2_required : string :=
  "psycopg2 is required for Postgres usage. Install psycopg2-binary.".

Definition init_sqlite : M unit :=
  on_sqlite (fun db => (create_table_if_not_exists sqlite_votes_schema db, Returns tt)).

Definition init_postgres : M unit :=
  drv <- read psycopg2 ;;
  if negb drv then raise (RuntimeError psycopg2_required)
  else on_postgres
         (fun db => (create_table_if_not_exists postgres_votes_schema db, Returns tt)).

(** The initialiser chosen by [if USE_POSTGRES: ... else: ...] *)
Definition initialize : M unit :=
  pg <- read USE_POSTGRES ;;
  if pg then init_postgres else init_sqlite.

Section App.

(** Text that the driver of an engine sends for a parameter that is
    neither [None] nor a [str]; [None] when it refuses the parameter. *)
Variable adapt : engine -> json -> option string.

(** Python's [int()] on a string; [None] when it raises ValueError. *)
Variable py_int : string -> option Z.

Definition bind_param (e : engine) (v : json) : outcome (option string) :=
  match v with
  | JNull => Returns None
  | JStr s =>
      match e with
      | SQLite => Returns (Some s)
      | Postgres => if has_nul s then Raises ValueError else Returns (Some s)
      end
  | other =>
      match adapt e other with
      | Some s => Returns (Some s)
      | None => Raises InterfaceError
      end
  end.

Definition execute_insert (e : engine) (v : json) (db : database)
  : database * outcome unit :=
  match bind_param e v with
  | Returns x => sql_insert e x db
  | Raises err => (db, Raises err)
  end.

Definition insert_vote (candidate : json) : M unit :=
  pg <- read USE_POSTGRES ;;
  if pg then on_postgres (execute_insert Postgres candidate)
  else on_sqlite (execute_insert SQLite candidate).

Definition fetch_counts (db : database) : outcome (gmap (option string) Z) :=
  match sql_select_counts db with
  | Returns rs => Returns (dict_of_rows rs)
  | Raises e => Raises e
  end.

Definition get_results : M (gmap (option string) Z) :=
  pg <- read USE_POSTGRES ;;
  if pg then on_postgres (query fetch_counts)
  else on_sqlite (query fetch_counts).

(** *** Requests and responses *)

Inductive http_method : Type := GET | HEAD | POST | OPTIONS | PUT | PATCH | DELETE.

Record request : Type := {
  method : http_method;
  path : string;
  form : list (string * string);   (* request.form, fields in body order *)
  body_json : option json          (* the body parsed as JSON, when it is JSON *)
}.

(** [request.form.get(k)]: the first value of the field, or None *)
Fixpoint form_get (k : string) (fields : list (string * string)) : option string :=
  match fields with
  | [] => None
  | (k', v) :: rest => if decide (k' = k) then Some v else form_get k rest
  end.

(** [request.get_json(silent=True)]: None when the body is absent, is
    not declared as JSON or does not parse *)
Definition get_json_silent (r : request) : json :=
  match body_json r with
  | Some j => j
  | None => JNull
  end.

Inductive response : Type :=
  | render_template (name : string) (selected_option : option string)
      (results : option (gmap (option string) Z))
  | redirect (location : string)
  | jsonify (members : list (string * json)) (status : Z)
  | jsonify_counts (results : gmap (option string) Z) (status : Z)
  | plain (text : string) (status : Z)
  | static_file (filename : string)
  | allowed_methods (allow : list http_method)
  | not_found
  | method_not_allowed.

(** [if x:] on the result of [request.form.get] *)
Definition nonempty (x : option string) : bool :=
  match x with
  | Some s => negb (String.eqb s "")
  | None => false
  end.

Definition index (r : request) : M response :=
  match method r with
  | POST =>
      let provider := form_get "option" (form r) in
      match provider with
      | Some s =>
          if nonempty provider then
            insert_vote (JStr s) ;;;
            results <- get_results ;;
            ret (render_template "result.html" (Some s) (Some results))
          else ret (render_template "index.html" None None)
      | None => ret (render_template "index.html" None None)
      end
  | _ => ret (render_template "index.html" None None)
  end.

Definition vote (r : request) : M response :=
  let selected_option := form_get "option" (form r) in
  match selected_option with
  | Some s =>
      if nonempty selected_option then
        insert_vote (JStr s) ;;;
        results <- get_results ;;
        ret (render_template "result.html" (Some s) (Some results))
      else ret (redirect "/")
  | None => ret (redirect "/")
  end.

Definition option_required : response :=
  jsonify [("error", JStr "option required")] 400.

Definition status_ok : response :=
  jsonify [("status", JStr "ok")] 200.

Definition api_vote (r : request) : M response :=
  let data := get_json_silent r in
  if negb (truthy data) then ret option_required
  else
    has <- lift (py_contains "option" data) ;;
    if negb has then ret option_required
    else
      v <- lift (py_getitem data "option") ;;
      insert_vote v ;;;
      ret status_ok.

(** [jsonify(results), 200]: Flask writes the keys of a dictionary in
    sorted order, and Python cannot order [None] and a [str]. *)
Definition jsonify_results (results : gmap (option string) Z) : outcome response :=
  if bool_decide (is_Some (results !! None)) && bool_decide (1 < size results)%nat
  then Raises TypeError
  else Returns (jsonify_counts results 200).

Definition api_results (_ : request) : M response :=
  results <- get_results ;;
  lift (jsonify_results results).

Definition health (_ : request) : M response :=
  ret (plain "OK" 200).

(** The URL map built by the [@app.route] decorators and by the static
    folder ([/css/<path:filename>]), as Flask dispatches on it: HEAD goes
    with GET, OPTIONS is answered without calling the view, another
    method on a known path is refused, an unknown path is not found. *)
Definition full_dispatch_request (r : request) : M response :=
  if String.eqb (path r) "/" then
    match method r with
    | GET | HEAD | POST => index r
    | OPTIONS => ret (allowed_methods [GET; HEAD; POST; OPTIONS])
    | _ => ret method_not_allowed
    end
  else if String.eqb (path r) "/vote" then
    match method r with
    | POST => vote r
    | OPTIONS => ret (allowed_methods [POST; OPTIONS])
    | _ => ret method_not_allowed
    end
  else if String.eqb (path r) "/api/vote" then
    match method r with
    | POST => api_vote r
    | OPTIONS => ret (allowed_methods [POST; OPTIONS])
    | _ => ret method_not_allowed
    end
  else if String.eqb (path r) "/api/results" then
    match method r with
    | GET | HEAD => api_results r
    | OPTIONS => ret (allowed_methods [GET; HEAD; OPTIONS])
    | _ => ret method_not_allowed
    end
  else if String.eqb (path r) "/health" then
    match method r with
    | GET | HEAD => health r
    | OPTIONS => ret (allowed_methods [GET; HEAD; OPTIONS])
    | _ => ret method_not_allowed
    end
  else if String.prefix "/css/" (path r) && (5 <? String.length (path r))%nat then
    match method r with
    | GET | HEAD =>
        ret (static_file (String.substring 5 (String.length (path r) - 5) (path r)))
    | OPTIONS => ret (allowed_methods [GET; HEAD; OPTIONS])
    | _ => ret method_not_allowed
    end
  else ret not_found.

(** Status line that the client sees; an exception that leaves a view
    becomes Flask's generic server error. *)
Definition http_status (o : outcome response) : Z :=
  match o with
  | Raises _ => 500
  | Returns (render_template _ _ _) => 200
  | Returns (redirect _) => 302
  | Returns (jsonify _ st) => st
  | Returns (jsonify_counts _ st) => st
  | Returns (plain _ st) => st
  | Returns (static_file _) => 200
  | Returns (allowed_methods _) => 200
  | Returns not_found => 404
  | Returns method_not_allowed => 405
  end.

(** The process serving requests one after the other. *)
Fixpoint serve (rs : list request) (p : process) : process * list (outcome response) :=
  match rs with
  | [] => (p, [])
  | r :: rest =>
      let '(p1, o) := full_dispatch_request r p in
      let '(p2, os) := serve rest p1 in
      (p2, o :: os)
  end.

(** *** Start-up: the module body, top to bottom *)

Inductive start_result : Type :=
  | Started (p : process)
  | Failed (e : exn) (sqlite_file postgres : database).

(** [int(os.environ.get('DB_PORT', 5432)) if os.environ.get('DB_PORT') else 5432] *)
Definition read_db_port (environ : gmap string string) : outcome Z :=
  if bool_of_env (environ !! "DB_PORT") then
    match environ !! "DB_PORT" with
    | Some s =>
        match py_int s with
        | Some n => Returns n
        | None => Raises ValueError
        end
    | None => Returns 5432
    end
  else Returns 5432.

(** Importing the module in an environment, with the Postgres driver
    installed or not, over the two stores as they are found. *)
Definition startup (environ : gmap string string) (driver_installed : bool)
    (sqlite_file postgres : database) : start_result :=
  match read_db_port environ with
  | Raises e => Failed e sqlite_file postgres
  | Returns port =>
      let p0 := {| psycopg2 := driver_installed;
                   DB_HOST := environ !! "DB_HOST";
                   DB_PORT := port;
                   USE_POSTGRES := bool_of_env (environ !! "DB_HOST");
                   votes_db := sqlite_file;
                   postgres_db := postgres |} in
      match initialize p0 with
      | (p1, Returns _) => Started p1
      | (p1, Raises e) => Failed e (votes_db p1) (postgres_db p1)
      end
  end.

End App.

(** ** Vocabulary of the specification *)

(** The store that the selection made at start-up designates. *)
Definition active_db (p : process) : database :=
  if USE_POSTGRES p then postgres_db p else votes_db p.

Definition active_engine (p : process) : engine :=
  if USE_POSTGRES p then Postgres else SQLite.

(** The store that the selection leaves aside. *)
Definition other_db (p : process) : database :=
  if USE_POSTGRES p then votes_db p else postgres_db p.

(** The candidate column of the stored votes, oldest first. *)
Definition stored (db : database) : list (option string) :=
  match db with
  | Some t => candidate <$> rows t
  | None => []
  end.

(** Number of stored votes for a candidate. *)
Definition votes_for (k : option string) (cands : list (option string)) : Z :=
  Z.of_nat (length (filter (fun c => c = k) cands)).

(** The count that a result mapping gives a candidate: 0 when it has no key. *)
Definition count_in (m : gmap (option string) Z) (k : option string) : Z :=
  default 0 (m !! k).

(** First binding of a key in a list of result rows. *)
Fixpoint first_binding (k : option string) (rs : list (option string * Z)) : option Z :=
  match rs with
  | [] => None
  | (k', n) :: rest => if decide (k' = k) then Some n else first_binding k rest
  end.

(** The views may call into the driver once start-up has let them: the
    Postgres selection goes with an imported driver. *)
Definition driver_ready (p : process) : Prop :=
  USE_POSTGRES p = true -> psycopg2 p = true.

(** The table of the active store exists and has the columns that the
    initialiser of that store declares. *)
Definition initialised (p : process) : Prop :=
  exists t, active_db p = Some t /\
    columns t = (if USE_POSTGRES p then postgres_votes_schema else sqlite_votes_schema).

(** A text that the driver of the active store binds and that its
    candidate column keeps as it is: on Postgres, no NUL character and
    at most 255 characters. *)
Definition accepted (p : process) (s : string) : Prop :=
  USE_POSTGRES p = true -> (String.length s <= 255)%nat /\ has_nul s = false.

(** The id sequence of the active table starts at 1 or later, is ahead
    of every stored id and has [n] values left. *)
Definition ids_left (n : nat) (p : process) : Prop :=
  forall t, active_db p = Some t ->
    1 <= next_id t /\
    Forall (fun r => id r < next_id t) (rows t) /\
    next_id t + Z.of_nat n <= max_id (active_engine p) + 1.

(** What a table holds for the program: its columns and its rows. *)
Definition votes_of (db : database) : option (schema * list row) :=
  (fun t => (columns t, rows t)) <$> db.

Definition set_active_db (db : database) (p : process) : process :=
  if USE_POSTGRES p then set_postgres_db db p else set_votes_db db p.

(** Running a computation twice from any process is running it once. *)
Definition idempotent (m : M unit) : Prop :=
  forall p, m (m p).1 = ((m p).1, (m p).2).

(** A POST to one of the three views that call [insert_vote]. *)
Definition is_vote_submission (r : request) : bool :=
  match method r with
  | POST => String.eqb (path r) "/" || String.eqb (path r) "/vote"
            || String.eqb (path r) "/api/vote"
  | _ => false
  end.


(** A computation keeps a property of the process, whether it returns
    or raises. *)
Definition preserves {A} (I : process -> Prop) (m : M A) : Prop :=
  forall p, I p -> I (m p).1.

(** Same globals and same unselected store as [p0]. *)
Definition same_selection (p0 p : process) : Prop :=
  psycopg2 p = psycopg2 p0 /\ DB_HOST p = DB_HOST p0 /\ DB_PORT p = DB_PORT p0 /\
  USE_POSTGRES p = USE_POSTGRES p0 /\ other_db p = other_db p0.

(** The candidate column of the active table is declared NOT NULL and no
    stored vote has a NULL candidate. *)
Definition no_null_candidate (p : process) : Prop :=
  forall t, active_db p = Some t ->
    candidate_not_null (columns t) = true /\ None ∉ (candidate <$> rows t).

(** Every stored vote of the active table has a text candidate that is
    not the empty string, in a table with the columns of its initialiser. *)
Definition no_empty_candidate (p : process) : Prop :=
  forall t, active_db p = Some t ->
    columns t = (if USE_POSTGRES p then postgres_votes_schema else sqlite_votes_schema) /\
    forall c, c ∈ (candidate <$> rows t) -> exists s, c = Some s /\ s <> "".

(** ** Instances of the parameters, for the worked examples *)

Definition decimal (z : Z) : string :=
  DecimalString.NilZero.string_of_int (Z.to_int z).

(** Integers and booleans sent as text, any other parameter refused. *)
Definition sample_adapt (e : engine) (v : json) : option string :=
  match v, e with
  | JInt z, _ => Some (decimal z)
  | JBool b, SQLite => Some (if b then "1" else "0")
  | JBool b, Postgres => Some (if b then "true" else "false")
  | _, _ => None
  end.

(** Plain decimal literals only. *)
Definition sample_int (s : string) : option Z :=
  Z.of_int <$> DecimalString.NilZero.int_of_string s.

Definition a_request (m : http_method) (p : string) : request :=
  {| method := m; path := p; form := []; body_json := None |}.

Definition post_form (p : string) (fields : list (string * string)) : request :=
  {| method := POST; path := p; form := fields; body_json := None |}.

Definition post_json (p : string) (j : json) : request :=
  {| method := POST; path := p; form := []; body_json := Some j |}.

(** A process started on the SQLite file, and one on Postgres. *)
Definition sqlite_process (db : database) : process :=
  {| psycopg2 := false; DB_HOST := None; DB_PORT := 5432;
     USE_POSTGRES := false; votes_db := db; postgres_db := None |}.

Definition postgres_process (db : database) : process :=
  {| psycopg2 := true; DB_HOST := Some "db.internal"; DB_PORT := 5432;
     USE_POSTGRES := true; votes_db := None; postgres_db := db |}.

Definition table_of (sch : schema) (cands : list string) : table :=
  foldl (fun t c => append_row t (Some c)) (empty_table sch) cands.


(** The text a, NUL, b. *)
Definition nul_name : string :=
  String "a" (String Ascii.zero (String "b" EmptyString)).

(** A table found with a nullable candidate column, a NULL and a text. *)
Definition found_table : table :=
  {| columns := {| id_column := INTEGER_PRIMARY_KEY_AUTOINCREMENT;
                   candidate_type := TEXT;
                   candidate_not_null := false |};
     rows := [{| id := 1; candidate := None |};
              {| id := 2; candidate := Some "AWS" |}];
     next_id := 3 |}.

(** A SQLite table whose largest ROWID is in use. *)
Definition full_table : table :=
  {| columns := sqlite_votes_schema;
     rows := [{| id := 9223372036854775807; candidate := Some "AWS" |}];
     next_id := 9223372036854775808 |}.

(** ** Further vocabulary: what a response says, what a run stores *)

(** The two answers that follow a successful [insert_vote]: the result
    page of the form views and the 200 of the JSON view. *)
Definition vote_recorded (o : outcome response) : bool :=
  match o with
  | Returns (render_template name _ _) => String.eqb name "result.html"
  | Returns (jsonify _ st) => st =? 200
  | _ => false
  end.

(** Same globals, same unselected store, and the same columns and rows
    in the selected one: at most its id sequence has moved. *)
Definition same_votes (p p' : process) : Prop :=
  same_selection p p' /\ votes_of (active_db p') = votes_of (active_db p).

(** A request either keeps the votes, wholly on SQLite, and does not
    announce a vote, or appends one row to the active table and
    announces it. *)
Definition effect_of_request (p p' : process) (o : outcome response) : Prop :=
  (same_votes p p' /\ (USE_POSTGRES p = false -> p' = p) /\
   vote_recorded o = false) \/
  (exists t i c, active_db p = Some t /\ driver_ready p /\
     p' = set_active_db (Some (add_row t i c)) p /\ vote_recorded o = true).

(** Sum of the counts of a result mapping. *)
Definition total_votes (m : gmap (option string) Z) : Z :=
  map_fold (fun _ n acc => n + acc) 0 m.

Definition is_object (j : json) : bool :=
  match j with
  | JObj _ => true
  | _ => false
  end.

(** The request that the static frontend sends for a candidate. *)
Definition vote_json (c : string) : request :=
  post_json "/api/vote" (JObj [("option", JStr c)]).

(** The process that start-up leaves when it succeeds. *)
Definition started_process (environ : gmap string string) (drv : bool)
    (port : Z) (sq pg : database) : process :=
  {| psycopg2 := drv;
     DB_HOST := environ !! "DB_HOST";
     DB_PORT := port;
     USE_POSTGRES := bool_of_env (environ !! "DB_HOST");
     votes_db :=
       if bool_of_env (environ !! "DB_HOST") then sq
       else create_table_if_not_exists sqlite_votes_schema sq;
     postgres_db :=
       if bool_of_env (environ !! "DB_HOST")
       then create_table_if_not_exists postgres_votes_schema pg
       else pg |}.

(** ** Counting: the GROUP BY query and the dictionary built from it *)

Section Counting.

Implicit Types (k c : option string) (l : list (option string)).
Implicit Types (rs acc : list (option string * Z)).

Lemma votes_for_snoc k l c :
  votes_for k (l ++ [c]) = votes_for k l + (if decide (c = k) then 1 else 0).
Proof.
  unfold votes_for. rewrite filter_app, length_app.
  rewrite filter_cons, filter_nil.
  destruct (decide (c = k)); simpl; lia.
Qed.

Lemma votes_for_absent k l : k ∉ l -> votes_for k l = 0.
Proof.
  intros Hk. unfold votes_for.
  induction l as [|c l IH]; [reflexivity|].
  apply not_elem_of_cons in Hk as [Hne Hl].
  rewrite filter_cons. destruct (decide (c = k)); [congruence|auto].
Qed.

Lemma votes_for_present k l : k ∈ l -> 1 <= votes_for k l.
Proof.
  intros Hk. unfold votes_for.
  induction l as [|c l IH]; [by apply elem_of_nil in Hk|].
  rewrite filter_cons. destruct (decide (c = k)) as [->|Hne]; simpl; [lia|].
  apply elem_of_cons in Hk as [->|Hl]; [congruence|auto].
Qed.

Lemma first_binding_bump c k acc :
  first_binding k (bump c acc) =
    if decide (k = c) then Some (default 0 (first_binding k acc) + 1)
    else first_binding k acc.
Proof.
  induction acc as [|[k' n] acc IH]; simpl.
  - destruct (decide (c = k)), (decide (k = c)); first [reflexivity | congruence].
  - destruct (decide (k' = c)) as [->|Hkc]; simpl.
    + destruct (decide (c = k)) as [->|]; [by rewrite decide_True|].
      by rewrite decide_False by congruence.
    + destruct (decide (k' = k)) as [->|]; [by rewrite decide_False|].
      apply IH.
Qed.

Lemma first_binding_None k rs : first_binding k rs = None <-> k ∉ rs.*1.
Proof.
  induction rs as [|[k' n] rs IH]; simpl.
  - split; [intros _; apply not_elem_of_nil|done].
  - rewrite not_elem_of_cons. destruct (decide (k' = k)) as [->|Hne].
    + split; [done|]. by intros [? _].
    + rewrite IH. split; [intros ?; split; [by intros ->|done]|by intros [_ ?]].
Qed.

Lemma first_binding_snoc k rs k' n :
  first_binding k (rs ++ [(k', n)]) =
    match first_binding k rs with
    | Some v => Some v
    | None => if decide (k' = k) then Some n else None
    end.
Proof.
  induction rs as [|[k2 n2] rs IH]; simpl; [done|].
  destruct (decide (k2 = k)); [done|apply IH].
Qed.

Lemma bump_keys c acc :
  (bump c acc).*1 = if decide (c ∈ acc.*1) then acc.*1 else acc.*1 ++ [c].
Proof.
  induction acc as [|[k n] acc IH]; [done|].
  cbn [bump]. destruct (decide (k = c)) as [->|Hne].
  - rewrite decide_True; [done|]. rewrite fmap_cons. apply elem_of_cons. by left.
  - rewrite !fmap_cons, IH. cbn [fst].
    destruct (decide (c ∈ acc.*1)) as [Hin|Hnin].
    + rewrite decide_True; [done|]. apply elem_of_cons. by right.
    + rewrite decide_False; [done|]. apply not_elem_of_cons. by split; [intros ->|].
Qed.

Lemma bump_NoDup c acc : NoDup acc.*1 -> NoDup (bump c acc).*1.
Proof.
  intros Hnd. rewrite bump_keys. destruct (decide (c ∈ acc.*1)); [done|].
  apply NoDup_app. split_and!; [done| |apply NoDup_singleton].
  intros x Hx Hc. apply list_elem_of_singleton in Hc. congruence.
Qed.

Lemma group_by_count_snoc l c :
  group_by_count (l ++ [c]) = bump c (group_by_count l).
Proof. unfold group_by_count. by rewrite foldl_app. Qed.

Lemma group_by_count_NoDup l : NoDup (group_by_count l).*1.
Proof.
  induction l as [|c l IH] using rev_ind; [apply NoDup_nil_2|].
  rewrite group_by_count_snoc. by apply bump_NoDup.
Qed.

Lemma first_binding_group k l :
  first_binding k (group_by_count l) =
    if decide (k ∈ l) then Some (votes_for k l) else None.
Proof.
  induction l as [|c l IH] using rev_ind.
  - rewrite decide_False; [done|apply not_elem_of_nil].
  - rewrite group_by_count_snoc, first_binding_bump, votes_for_snoc, IH.
    destruct (decide (k = c)) as [->|Hne].
    + rewrite (decide_True (P := c = c)) by done.
      rewrite (decide_True (P := c ∈ l ++ [c]))
        by (apply elem_of_app; right; by apply list_elem_of_singleton).
      destruct (decide (c ∈ l)) as [|Hnin]; simpl; [done|].
      by rewrite votes_for_absent.
    + rewrite (decide_False (P := c = k)) by congruence.
      rewrite Z.add_0_r.
      destruct (decide (k ∈ l)) as [Hin|Hnin].
      * rewrite decide_True; [done|]. apply elem_of_app. by left.
      * rewrite decide_False; [done|].
        by intros [?|?%list_elem_of_singleton]%elem_of_app.
Qed.

Lemma dict_of_rows_snoc rs k n :
  dict_of_rows (rs ++ [(k, n)]) = <[k := n]> (dict_of_rows rs).
Proof. unfold dict_of_rows. by rewrite foldl_app. Qed.

Lemma lookup_dict_of_rows k rs :
  NoDup rs.*1 -> dict_of_rows rs !! k = first_binding k rs.
Proof.
  induction rs as [|[k' n] rs IH] using rev_ind; intros Hnd; [done|].
  rewrite fmap_app in Hnd. apply NoDup_app in Hnd as (Hnd & Hfresh & _).
  rewrite dict_of_rows_snoc, first_binding_snoc, <- (IH Hnd).
  destruct (decide (k' = k)) as [->|Hne].
  - rewrite lookup_insert_eq.
    assert (Hk : k ∉ rs.*1)
      by (intros Hin; apply (Hfresh k Hin); by apply list_elem_of_singleton).
    apply first_binding_None in Hk. rewrite <- (IH Hnd) in Hk. by rewrite Hk.
  - rewrite lookup_insert_ne by done. by destruct (dict_of_rows rs !! k).
Qed.

(** What the dictionary of a GROUP BY result holds for a key. *)
Lemma lookup_counts k l :
  dict_of_rows (group_by_count l) !! k =
    if decide (k ∈ l) then Some (votes_for k l) else None.
Proof.
  rewrite lookup_dict_of_rows by apply group_by_count_NoDup.
  apply first_binding_group.
Qed.

Lemma count_in_counts k l :
  count_in (dict_of_rows (group_by_count l)) k = votes_for k l.
Proof.
  unfold count_in. rewrite lookup_counts.
  destruct (decide (k ∈ l)); simpl; [done|]. by rewrite votes_for_absent.
Qed.

End Counting.

(** ** The two storage helpers on a running process *)

Section Helpers.

Variable adapt : engine -> json -> option string.

Lemma set_active_db_same p : set_active_db (active_db p) p = p.
Proof. by destruct p as [? ? ? [] ? ?]. Qed.

Lemma active_db_set db p : active_db (set_active_db db p) = db.
Proof. by destruct p as [? ? ? [] ? ?]. Qed.

Lemma other_db_set db p : other_db (set_active_db db p) = other_db p.
Proof. by destruct p as [? ? ? [] ? ?]. Qed.

Lemma USE_POSTGRES_set db p : USE_POSTGRES (set_active_db db p) = USE_POSTGRES p.
Proof. by destruct p as [? ? ? [] ? ?]. Qed.

Lemma psycopg2_set db p : psycopg2 (set_active_db db p) = psycopg2 p.
Proof. by destruct p as [? ? ? [] ? ?]. Qed.

Lemma driver_ready_set db p : driver_ready p -> driver_ready (set_active_db db p).
Proof. unfold driver_ready. by rewrite USE_POSTGRES_set, psycopg2_set. Qed.

(** With the driver at hand, [get_results] is the query on the active
    store and changes nothing. *)
Lemma get_results_run p :
  driver_ready p -> get_results p = (p, fetch_counts (active_db p)).
Proof.
  destruct p as [drv h port [] sq pg]; unfold driver_ready; simpl; intros Hd.
  - unfold get_results, bind, read, on_postgres; simpl.
    by rewrite (Hd eq_refl).
  - reflexivity.
Qed.

(** In any process [get_results] leaves the process as it found it. *)
Lemma get_results_pure p : (get_results p).1 = p.
Proof. by destruct p as [[] h port [] sq pg]. Qed.

Lemma insert_vote_run v p :
  driver_ready p ->
  insert_vote adapt v p =
    (set_active_db (execute_insert adapt (active_engine p) v (active_db p)).1 p,
     (execute_insert adapt (active_engine p) v (active_db p)).2).
Proof.
  destruct p as [drv h port [] sq pg]; unfold driver_ready; simpl; intros Hd.
  - rewrite (Hd eq_refl).
    unfold insert_vote, bind, read, on_postgres, active_engine, active_db,
      set_active_db; simpl.
    by destruct (execute_insert adapt Postgres v pg).
  - unfold insert_vote, bind, read, on_sqlite, active_engine, active_db,
      set_active_db; simpl.
    by destruct (execute_insert adapt SQLite v sq).
Qed.

Lemma fetch_counts_table t :
  fetch_counts (Some t) =
    Returns (dict_of_rows (group_by_count (candidate <$> rows t))).
Proof. reflexivity. Qed.

Lemma largest_id_below n rs :
  1 <= n -> Forall (fun r => id r < n) rs -> largest_id rs + 1 <= n.
Proof.
  intros Hn Hrs. induction Hrs as [|r rs Hr _ IH]; simpl; lia.
Qed.

Lemma id_taken_below n rs :
  Forall (fun r => id r < n) rs -> id_taken n rs = false.
Proof.
  intros Hrs. induction Hrs as [|r rs Hr _ IH]; simpl; [done|].
  rewrite IH, orb_false_r. apply Z.eqb_neq. lia.
Qed.

(** A text that the column keeps is appended under the next id of a
    sequence that is ahead of the stored ids and not used up. *)
Lemma insert_row_accepted e t s :
  store_text e (candidate_type (columns t)) s = Returns s ->
  1 <= next_id t -> Forall (fun r => id r < next_id t) (rows t) ->
  next_id t <= max_id e ->
  insert_row e (Some s) t = (append_row t (Some s), Returns tt).
Proof.
  intros Htext Hone Hids Hmax. unfold insert_row, assign_text. rewrite Htext.
  pose proof (largest_id_below _ _ Hone Hids) as Hlargest.
  destruct e; simpl null_refused; cbv iota.
  - rewrite Z.max_l by lia.
    rewrite (proj2 (Z.ltb_ge _ _)) by done. done.
  - rewrite (proj2 (Z.ltb_ge _ _)) by done.
    by rewrite (id_taken_below _ _ Hids).
Qed.

Lemma store_text_accepted p t s :
  columns t = (if USE_POSTGRES p then postgres_votes_schema else sqlite_votes_schema) ->
  accepted p s ->
  store_text (active_engine p) (candidate_type (columns t)) s = Returns s.
Proof.
  intros -> Hacc. unfold active_engine, accepted in *.
  destruct (USE_POSTGRES p); simpl; [|done].
  destruct (Hacc eq_refl) as [Hlen _].
  by rewrite (proj2 (Nat.leb_le _ _) Hlen).
Qed.

Lemma bind_param_accepted p s :
  accepted p s -> bind_param adapt (active_engine p) (JStr s) = Returns (Some s).
Proof.
  unfold active_engine, accepted. destruct (USE_POSTGRES p); simpl; [|done].
  intros Hacc. destruct (Hacc eq_refl) as [_ ->]. done.
Qed.

(** An accepted text is appended as it is to an initialised table whose
    sequence has a value left. *)
Lemma execute_insert_accepted p s :
  initialised p -> accepted p s -> ids_left 1 p ->
  exists t, active_db p = Some t /\
    execute_insert adapt (active_engine p) (JStr s) (active_db p) =
      (Some (append_row t (Some s)), Returns tt).
Proof.
  intros (t & Hdb & Hcols) Hacc Hids. exists t. split; [done|].
  destruct (Hids t Hdb) as (Hone & Hbelow & Hmax).
  unfold execute_insert. rewrite (bind_param_accepted p s Hacc), Hdb.
  unfold sql_insert.
  rewrite (insert_row_accepted _ t s); [done| |done|done|lia].
  by apply store_text_accepted.
Qed.

End Helpers.

(** ** Inserting and reading back *)

Section Storage.

Variable adapt : engine -> json -> option string.


Lemma lookup_counts_snoc_same c l :
  dict_of_rows (group_by_count (l ++ [c])) !! c =
    Some (count_in (dict_of_rows (group_by_count l)) c + 1).
Proof.
  rewrite lookup_counts, count_in_counts, votes_for_snoc.
  rewrite decide_True by (apply elem_of_app; right; by apply list_elem_of_singleton).
  by rewrite (decide_True (P := c = c)).
Qed.

Lemma lookup_counts_snoc_other c k l :
  k <> c ->
  dict_of_rows (group_by_count (l ++ [c])) !! k =
    dict_of_rows (group_by_count l) !! k.
Proof.
  intros Hne. rewrite !lookup_counts, votes_for_snoc.
  rewrite (decide_False (P := c = k)) by congruence. rewrite Z.add_0_r.
  destruct (decide (k ∈ l)) as [Hin|Hnin].
  - rewrite decide_True; [done|]. apply elem_of_app. by left.
  - rewrite decide_False; [done|].
    by intros [?|?%list_elem_of_singleton]%elem_of_app.
Qed.

(** An accepted insert appends exactly the candidate to the active
    store and keeps everything else of the process. *)
Lemma insert_vote_accepted p s :
  driver_ready p -> initialised p -> accepted p s -> ids_left 1 p ->
  exists t, active_db p = Some t /\
    insert_vote adapt (JStr s) p =
      (set_active_db (Some (append_row t (Some s))) p, Returns tt).
Proof.
  intros Hd Hi Ha Hids.
  destruct (execute_insert_accepted adapt p s Hi Ha Hids) as (t & Hdb & Hex).
  exists t. split; [done|]. by rewrite insert_vote_run, Hex.
Qed.


(** C7. When the votes table holds no row, [get_results] returns the
    empty mapping (and leaves the process as it was). *)
Theorem get_results_no_votes (p : process) (t : table) :
  driver_ready p -> active_db p = Some t -> rows t = [] ->
  get_results p = (p, Returns ∅).
Proof.
  intros Hd Hdb Hrows. by rewrite get_results_run, Hdb, fetch_counts_table, Hrows.
Qed.

(** C10. The mapping returned by [get_results] has exactly the distinct
    stored candidates as keys, and the value of each key is the number of
    its stored votes, an integer greater than or equal to 1. *)
Theorem get_results_counts_positive (p : process) (t : table) :
  driver_ready p -> active_db p = Some t ->
  exists m,
    get_results p = (p, Returns m) /\
    (forall k n, m !! k = Some n -> 1 <= n /\ n = votes_for k (stored (active_db p))) /\
    dom m = list_to_set (stored (active_db p)).
Proof.
  intros Hd Hdb.
  exists (dict_of_rows (group_by_count (candidate <$> rows t))).
  rewrite Hdb; simpl. split_and!.
  - by rewrite get_results_run, Hdb.
  - intros k n. rewrite lookup_counts.
    destruct (decide (k ∈ candidate <$> rows t)) as [Hin|]; [|done].
    intros [= <-]. split; [by apply votes_for_present|done].
  - apply set_eq. intros k. rewrite elem_of_dom, elem_of_list_to_set, lookup_counts.
    destruct (decide (k ∈ candidate <$> rows t)) as [Hin|Hnin].
    + split; [done|by eexists].
    + split; [by intros [? ?]|done].
Qed.

End Storage.

(** ** Initialisation and start-up *)

Section Startup.

Variable py_int : string -> option Z.

Lemma init_sqlite_idempotent : idempotent init_sqlite.
Proof. intros [drv h port pg [t|] pgdb]; reflexivity. Qed.

Lemma init_postgres_idempotent : idempotent init_postgres.
Proof. intros [[] h port pg sq [t|]]; reflexivity. Qed.

Lemma initialize_run p :
  initialize p = if USE_POSTGRES p then init_postgres p else init_sqlite p.
Proof. by destruct p as [? ? ? [] ? ?]. Qed.

Lemma USE_POSTGRES_init_sqlite p :
  USE_POSTGRES (init_sqlite p).1 = USE_POSTGRES p.
Proof. by destruct p. Qed.

Lemma USE_POSTGRES_init_postgres p :
  USE_POSTGRES (init_postgres p).1 = USE_POSTGRES p.
Proof. by destruct p as [[] ? ? ? ? ?]. Qed.

Lemma initialize_existing p :
  driver_ready p -> is_Some (active_db p) -> initialize p = (p, Returns tt).
Proof.
  destruct p as [drv h port [] sq pg]; unfold driver_ready, active_db; simpl;
    intros Hd [t ->]; [|reflexivity].
  by rewrite (Hd eq_refl).
Qed.

Lemma initialize_returns p :
  driver_ready p ->
  (initialize p).2 = Returns tt /\ is_Some (active_db (initialize p).1) /\
  same_selection p (initialize p).1.
Proof.
  destruct p as [drv h port [] sq pg]; unfold driver_ready, active_db; simpl;
    intros Hd.
  - rewrite (Hd eq_refl). by destruct pg.
  - by destruct sq.
Qed.

(** C9. The initialiser is idempotent, for each store and as selected:
    run a second time it returns what the first run returned and changes
    nothing more; on a store whose votes table exists it changes nothing
    at all (rows, id sequence and columns stay as they were); and it
    returns normally from any prior state of a reachable store. *)
Theorem initialize_idempotent :
  idempotent init_sqlite /\ idempotent init_postgres /\ idempotent initialize /\
  (forall p, driver_ready p -> is_Some (active_db p) ->
     initialize p = (p, Returns tt)) /\
  (forall p, driver_ready p ->
     (initialize p).2 = Returns tt /\ is_Some (active_db (initialize p).1)).
Proof.
  split_and!.
  - apply init_sqlite_idempotent.
  - apply init_postgres_idempotent.
  - intros p. rewrite !initialize_run.
    destruct (USE_POSTGRES p) eqn:Hpg.
    + rewrite USE_POSTGRES_init_postgres, Hpg. apply init_postgres_idempotent.
    + rewrite USE_POSTGRES_init_sqlite, Hpg. apply init_sqlite_idempotent.
  - apply initialize_existing.
  - intros p Hd. destruct (initialize_returns p Hd) as (? & ? & _). by split.
Qed.

Lemma bool_of_env_true x :
  bool_of_env x = true <-> exists h, x = Some h /\ h <> "".
Proof.
  destruct x as [h|]; simpl.
  - rewrite negb_true_iff, String.eqb_neq. split; [by exists h|].
    by intros (? & [= <-] & ?).
  - split; [done|by intros (? & ? & _)].
Qed.

(** C4. When DB_HOST selects Postgres and psycopg2 could not be
    imported, importing the module fails: it never yields a started
    process, neither store is touched (in particular no SQLite table is
    created in its place), and whenever the module body gets as far as
    the initialiser the exception is the RuntimeError of
    [init_postgres]. *)
Theorem startup_without_driver (environ : gmap string string) (sq pg : database) :
  bool_of_env (environ !! "DB_HOST") = true ->
  exists e, startup py_int environ false sq pg = Failed e sq pg /\
    (forall port, read_db_port py_int environ = Returns port ->
       e = RuntimeError psycopg2_required).
Proof.
  intros Hhost. unfold startup.
  destruct (read_db_port py_int environ) as [port|e].
  - exists (RuntimeError psycopg2_required). split; [|done].
    rewrite initialize_run; simpl. by rewrite Hhost.
  - exists e. by split.
Qed.

End Startup.

(** ** What the views keep of the process *)

Create HintDb keeps discriminated.

Section Keeping.

Context {A B : Type} (I : process -> Prop).

Lemma preserves_ret (a : A) : preserves I (ret a).
Proof. by intros p. Qed.

Lemma preserves_raise (e : exn) : preserves I (raise (A := A) e).
Proof. by intros p. Qed.

Lemma preserves_lift (o : outcome A) : preserves I (lift o).
Proof. by intros p. Qed.

Lemma preserves_read (f : process -> A) : preserves I (read f).
Proof. by intros p. Qed.

Lemma preserves_bind (m : M A) (k : A -> M B) :
  preserves I m -> (forall a, preserves I (k a)) -> preserves I (bind m k).
Proof.
  intros Hm Hk p HI. unfold bind. specialize (Hm p HI).
  destruct (m p) as [p' [a|e]]; simpl in *; [by apply Hk|done].
Qed.

End Keeping.

#[local] Hint Resolve preserves_ret preserves_raise preserves_lift
  preserves_read preserves_bind : keeps.

Section Views.

Variable adapt : engine -> json -> option string.
Variable I : process -> Prop.
Hypothesis get_results_keeps : preserves I get_results.

Lemma api_results_keeps r : preserves I (api_results r).
Proof. unfold api_results. auto with keeps. Qed.

Lemma health_keeps r : preserves I (health r).
Proof. unfold health. auto with keeps. Qed.

(** A request that is not a vote submission runs, at most, the query. *)
Lemma read_request_keeps r :
  is_vote_submission r = false -> preserves I (full_dispatch_request adapt r).
Proof.
  unfold is_vote_submission, full_dispatch_request, index.
  destruct (String.eqb (path r) "/"), (String.eqb (path r) "/vote"),
    (String.eqb (path r) "/api/vote"), (String.eqb (path r) "/api/results"),
    (String.eqb (path r) "/health"),
    (String.prefix "/css/" (path r) && (5 <? String.length (path r))%nat);
    destruct (method r); simpl; intros Hr; try discriminate Hr;
    auto using api_results_keeps, health_keeps with keeps.
Qed.

Hypothesis insert_vote_keeps : forall v, preserves I (insert_vote adapt v).

Lemma index_keeps r : preserves I (index adapt r).
Proof.
  unfold index. destruct (method r); auto with keeps.
  destruct (form_get "option" (form r)) as [s|]; auto with keeps.
  destruct (nonempty (Some s)); auto 7 with keeps.
Qed.

Lemma vote_keeps r : preserves I (vote adapt r).
Proof.
  unfold vote.
  destruct (form_get "option" (form r)) as [s|]; auto with keeps.
  destruct (nonempty (Some s)); auto 7 with keeps.
Qed.

Lemma api_vote_keeps r : preserves I (api_vote adapt r).
Proof.
  unfold api_vote. destruct (negb (truthy (get_json_silent r))); auto with keeps.
  apply preserves_bind; [auto with keeps|]. intros has.
  destruct (negb has); auto 7 with keeps.
Qed.

Lemma request_keeps r : preserves I (full_dispatch_request adapt r).
Proof.
  unfold full_dispatch_request.
  repeat match goal with
         | |- context [if ?b then _ else _] => destruct b
         end;
    destruct (method r);
    auto using index_keeps, vote_keeps, api_vote_keeps, api_results_keeps,
      health_keeps with keeps.
Qed.

Lemma serve_keeps rs : forall p, I p -> I (serve adapt rs p).1.
Proof.
  induction rs as [|r rs IH]; intros p HI; [done|]. simpl.
  pose proof (request_keeps r p HI) as H1.
  destruct (full_dispatch_request adapt r p) as [p1 o]. simpl in H1.
  specialize (IH p1 H1). by destruct (serve adapt rs p1).
Qed.

End Views.

(** ** The endpoints *)

Section Endpoints.

Variable adapt : engine -> json -> option string.
Variable py_int : string -> option Z.

Lemma same_selection_refl p : same_selection p p.
Proof. by repeat split. Qed.

Lemma same_selection_trans p0 p1 p2 :
  same_selection p0 p1 -> same_selection p1 p2 -> same_selection p0 p2.
Proof.
  unfold same_selection. intros (?&?&?&?&?) (?&?&?&?&?).
  split_and!; congruence.
Qed.

Lemma insert_vote_same_selection v p :
  same_selection p (insert_vote adapt v p).1.
Proof.
  destruct p as [[] h port [] sq pg];
    unfold insert_vote, bind, read, on_postgres, on_sqlite, same_selection;
    simpl; try done.
  - by destruct (execute_insert adapt Postgres v pg).
  - by destruct (execute_insert adapt SQLite v sq).
  - by destruct (execute_insert adapt SQLite v sq).
Qed.

Lemma get_results_keeps_all (I : process -> Prop) : preserves I get_results.
Proof. intros p HI. by rewrite get_results_pure. Qed.

Lemma insert_vote_keeps_selection p0 v :
  preserves (same_selection p0) (insert_vote adapt v).
Proof.
  intros p Hp. eapply same_selection_trans; [exact Hp|].
  apply insert_vote_same_selection.
Qed.

(** No sequence of requests changes the globals or the unselected store. *)
Lemma serve_same_selection rs p : same_selection p (serve adapt rs p).1.
Proof.
  apply (serve_keeps adapt (same_selection p)).
  - apply get_results_keeps_all.
  - apply insert_vote_keeps_selection.
  - apply same_selection_refl.
Qed.

Lemma same_selection_driver_ready p0 p :
  same_selection p0 p -> driver_ready p0 -> driver_ready p.
Proof. unfold driver_ready. intros (-> & _ & _ & -> & _). done. Qed.

(** C8. A request that is not a POST to one of the vote-submission
    routes leaves the whole process, hence the stored votes of both
    stores, exactly as it was. GET /, GET /api/results and GET /health
    are such requests. *)
Theorem read_endpoints_pure (r : request) (p : process) :
  is_vote_submission r = false ->
  (full_dispatch_request adapt r p).1 = p.
Proof.
  intros Hr. symmetry.
  apply (read_request_keeps adapt (fun q => p = q)); [|done|done].
  apply get_results_keeps_all.
Qed.

(** C6. A POST to a form endpoint whose form has no non-empty [option]
    field inserts nothing and shows no error: POST / answers with the
    form page, POST /vote with a redirect to /, and the process (both
    stores included) is unchanged. *)
Theorem form_post_without_option (r : request) (p : process) :
  method r = POST ->
  nonempty (form_get "option" (form r)) = false ->
  (path r = "/" ->
     full_dispatch_request adapt r p =
       (p, Returns (render_template "index.html" None None))) /\
  (path r = "/vote" ->
     full_dispatch_request adapt r p = (p, Returns (redirect "/"))).
Proof.
  intros Hm Hopt. unfold full_dispatch_request, index, vote.
  split; intros ->; simpl; rewrite Hm;
    destruct (form_get "option" (form r)) as [s|]; try reflexivity;
    by rewrite Hopt.
Qed.

Lemma dict_get_Some_nonempty k members v :
  dict_get k members = Some v -> truthy (JObj members) = true.
Proof. by destruct members. Qed.


Lemma api_vote_accepts r p members s :
  driver_ready p -> initialised p -> accepted p s -> ids_left 1 p ->
  body_json r = Some (JObj members) ->
  dict_get "option" members = Some (JStr s) ->
  exists p1, api_vote adapt r p = (p1, Returns status_ok) /\
    stored (active_db p1) = stored (active_db p) ++ [Some s] /\
    other_db p1 = other_db p.
Proof.
  intros Hd Hi Ha Hids Hbody Hget.
  destruct (insert_vote_accepted adapt p s Hd Hi Ha Hids) as (t & Hdb & Hins).
  exists (set_active_db (Some (append_row t (Some s))) p). split_and!.
  - unfold api_vote, get_json_silent. rewrite Hbody.
    rewrite (dict_get_Some_nonempty _ _ _ Hget). cbn [negb].
    unfold bind, lift, py_contains, py_getitem. rewrite Hget. simpl.
    by rewrite Hins.
  - rewrite active_db_set, Hdb. simpl. by rewrite fmap_app.
  - apply other_db_set.
Qed.

Lemma dispatch_api_vote r :
  method r = POST -> path r = "/api/vote" ->
  full_dispatch_request adapt r = api_vote adapt r.
Proof. intros Hm Hp. unfold full_dispatch_request. by rewrite Hp, Hm. Qed.


(** C3 fails on the JSON view, which tests only that the key [option]
    is present: a body [{"option": ""}] is answered 200 and a vote whose
    candidate is the empty string is stored, on either store, whenever
    the id sequence has a value left. *)
Theorem api_vote_stores_empty_candidate (r : request) (p : process) :
  method r = POST -> path r = "/api/vote" ->
  driver_ready p -> initialised p -> ids_left 1 p ->
  body_json r = Some (JObj [("option", JStr "")]) ->
  exists p1, full_dispatch_request adapt r p = (p1, Returns status_ok) /\
    stored (active_db p1) = stored (active_db p) ++ [Some ""].
Proof.
  intros Hm Hp Hd Hi Hids Hbody. rewrite (dispatch_api_vote r Hm Hp).
  assert (Ha : accepted p "") by (intros _; split; [simpl; lia|done]).
  destruct (api_vote_accepts r p _ "" Hd Hi Ha Hids Hbody eq_refl)
    as (p1 & Hrun & Hst & _).
  by exists p1.
Qed.

Lemma startup_started environ drv sq pg p :
  startup py_int environ drv sq pg = Started p ->
  USE_POSTGRES p = bool_of_env (environ !! "DB_HOST") /\
  driver_ready p /\ is_Some (active_db p).
Proof.
  unfold startup. destruct (read_db_port py_int environ) as [port|e]; [|done].
  set (p0 := {| psycopg2 := drv; DB_HOST := environ !! "DB_HOST";
                DB_PORT := port;
                USE_POSTGRES := bool_of_env (environ !! "DB_HOST");
                votes_db := sq; postgres_db := pg |}).
  destruct (initialize p0) as [p1 [[]|e]] eqn:Hinit; [|done].
  intros [= <-]. revert Hinit. unfold p0, driver_ready, active_db.
  rewrite initialize_run; simpl.
  destruct (bool_of_env (environ !! "DB_HOST")), drv; simpl;
    unfold init_postgres, init_sqlite, bind, read, raise, on_postgres,
      on_sqlite; simpl; intros [= <-]; simpl;
    (split_and!; [done|done|]).
  - by destruct pg.
  - by destruct sq.
  - by destruct sq.
Qed.

(** C5. A process that has started has one selection, the truth value
    of DB_HOST in the environment it was started in: Postgres exactly
    when DB_HOST is set and not empty, the SQLite file otherwise. No
    sequence of requests changes it or touches the store that was not
    selected, and at any later time [get_results] reads and
    [insert_vote] writes the selected store only. *)
Theorem backend_selected_once (environ : gmap string string) (drv : bool)
    (sq pg : database) (p : process) :
  startup py_int environ drv sq pg = Started p ->
  USE_POSTGRES p = bool_of_env (environ !! "DB_HOST") /\
  (USE_POSTGRES p = true <-> exists h, environ !! "DB_HOST" = Some h /\ h <> "") /\
  forall rs,
    let p' := (serve adapt rs p).1 in
    USE_POSTGRES p' = USE_POSTGRES p /\
    other_db p' = other_db p /\
    get_results p' = (p', fetch_counts (active_db p')) /\
    forall v,
      insert_vote adapt v p' =
        (set_active_db (execute_insert adapt (active_engine p') v (active_db p')).1 p',
         (execute_insert adapt (active_engine p') v (active_db p')).2).
Proof.
  intros Hstart.
  destruct (startup_started _ _ _ _ _ Hstart) as (Hsel & Hd & _).
  split_and!; [done|by rewrite Hsel, bool_of_env_true|].
  intros rs p'. pose proof (serve_same_selection rs p) as Hsame.
  fold p' in Hsame.
  assert (Hd' : driver_ready p') by by eapply same_selection_driver_ready.
  destruct Hsame as (_ & _ & _ & Hpg & Hother).
  split_and!; [done|done|by apply get_results_run|].
  intros v. by apply insert_vote_run.
Qed.

End Endpoints.

(** ** Invariants of the stored votes *)

Section Invariants.

Variable adapt : engine -> json -> option string.

(** The statement appends one row whose candidate passed the column, or
    is refused and keeps columns and rows; SQLite then keeps the table. *)
Lemma insert_row_cases e v t :
  (exists i c,
     assign_text e (candidate_type (columns t)) v = Returns c /\
     null_refused (columns t) c = false /\
     insert_row e v t = (add_row t i c, Returns tt)) \/
  (exists x t',
     insert_row e v t = (t', Raises x) /\
     columns t' = columns t /\ rows t' = rows t /\
     (e = SQLite -> t' = t)).
Proof.
  unfold insert_row.
  destruct (assign_text e (candidate_type (columns t)) v) as [c|x];
    [|right; by exists x, t].
  destruct e.
  - destruct (max_id SQLite <? _); [right; by eexists _, t|].
    destruct (null_refused (columns t) c) eqn:Hnull; [right; by eexists _, t|].
    left. by eexists _, c.
  - destruct (max_id Postgres <? _); [right; by eexists _, t|].
    destruct (null_refused (columns t) c) eqn:Hnull;
      [right; by eexists _, (burn_id t)|].
    destruct (id_taken (next_id t) (rows t));
      [right; by eexists _, (burn_id t)|].
    left. by eexists _, c.
Qed.

Lemma execute_insert_cases e v db :
  (exists t x i c,
     db = Some t /\
     bind_param adapt e v = Returns x /\
     assign_text e (candidate_type (columns t)) x = Returns c /\
     null_refused (columns t) c = false /\
     execute_insert adapt e v db = (Some (add_row t i c), Returns tt)) \/
  (exists x db',
     execute_insert adapt e v db = (db', Raises x) /\
     votes_of db' = votes_of db /\ (e = SQLite -> db' = db)).
Proof.
  unfold execute_insert, sql_insert.
  destruct (bind_param adapt e v) as [x|err]; [|right; by exists err, db].
  destruct db as [t|]; [|right; by eexists _, None].
  destruct (insert_row_cases e x t)
    as [(i & c & Hc & Hnull & ->)|(err & t' & -> & Hcols & Hrows & Hsame)].
  - left. by exists t, x, i, c.
  - right. exists err, (Some t'). split_and!; [done| |].
    + simpl. by rewrite Hcols, Hrows.
    + intros He. by rewrite (Hsame He).
Qed.

Lemma same_votes_refl p : same_votes p p.
Proof. split; [by repeat split|done]. Qed.

Lemma same_votes_set p db :
  votes_of db = votes_of (active_db p) -> same_votes p (set_active_db db p).
Proof.
  intros Hvotes. split.
  - unfold same_selection.
    rewrite psycopg2_set, USE_POSTGRES_set, other_db_set.
    by destruct p as [? ? ? [] ? ?].
  - by rewrite active_db_set.
Qed.

(** [insert_vote] appends one row whose candidate passed the binding and
    the column and returns, or raises and keeps the votes. *)
Lemma insert_vote_cases v p :
  (exists t x i c,
     active_db p = Some t /\ driver_ready p /\
     bind_param adapt (active_engine p) v = Returns x /\
     assign_text (active_engine p) (candidate_type (columns t)) x = Returns c /\
     null_refused (columns t) c = false /\
     insert_vote adapt v p =
       (set_active_db (Some (add_row t i c)) p, Returns tt)) \/
  (exists x p',
     insert_vote adapt v p = (p', Raises x) /\
     same_votes p p' /\ (USE_POSTGRES p = false -> p' = p)).
Proof.
  destruct (decide (USE_POSTGRES p = true /\ psycopg2 p = false)) as [[Hpg Hdrv]|Hd].
  - right. exists AttributeError, p. split_and!; [|apply same_votes_refl|done].
    destruct p as [drv h port pg sq pgdb]. simpl in *. by subst.
  - assert (Hd' : driver_ready p).
    { unfold driver_ready. destruct (psycopg2 p); [done|]. intros ?. by destruct Hd. }
    rewrite (insert_vote_run adapt v p Hd').
    destruct (execute_insert_cases (active_engine p) v (active_db p))
      as [(t & x & i & c & Hdb & Hb & Hc & Hnull & ->)
         |(x & db' & -> & Hvotes & Hsame)]; simpl.
    + left. by exists t, x, i, c.
    + right. exists x, (set_active_db db' p). split_and!; [done| |].
      * by apply same_votes_set.
      * intros Hpg. rewrite Hsame; [apply set_active_db_same|].
        unfold active_engine. by rewrite Hpg.
Qed.

Lemma substring_head n c s :
  String.substring 0 (S n) (String c s) = String c (String.substring 0 n s).
Proof. reflexivity. Qed.

(** Under the columns of either initialiser a non-empty text is stored
    as a non-empty text. *)
Lemma store_text_nonempty e (pg : bool) s s' :
  s <> "" ->
  store_text e (candidate_type
    (if pg then postgres_votes_schema else sqlite_votes_schema)) s = Returns s' ->
  s' <> "".
Proof.
  intros Hs. destruct pg, e; simpl; try (by intros [= <-]).
  destruct (String.length s <=? 255)%nat; [by intros [= <-]|].
  destruct (all_spaces _); [|done]. intros [= <-].
  destruct s as [|c s]; [done|]. by rewrite substring_head.
Qed.

Lemma same_votes_table p p' t' :
  same_votes p p' -> active_db p' = Some t' ->
  exists t, active_db p = Some t /\ columns t = columns t' /\ rows t = rows t'.
Proof.
  intros [_ Hvotes] Hdb'. rewrite Hdb' in Hvotes.
  destruct (active_db p) as [t|]; [|done].
  injection Hvotes as Hcols Hrows. by exists t.
Qed.

Lemma candidates_add_row t i c :
  candidate <$> rows (add_row t i c) = (candidate <$> rows t) ++ [c].
Proof. unfold add_row; simpl. by rewrite fmap_app. Qed.

Lemma insert_vote_keeps_not_null v :
  preserves no_null_candidate (insert_vote adapt v).
Proof.
  intros p Hinv t'.
  destruct (insert_vote_cases v p)
    as [(t & x & i & c & Hdb & _ & _ & _ & Hnull & ->)
       |(x & p' & -> & Hsame & _)]; simpl.
  - rewrite active_db_set. intros [= <-].
    destruct (Hinv t Hdb) as [Hnn Hrows]. split; [done|].
    rewrite candidates_add_row.
    intros [?|Hin%list_elem_of_singleton]%elem_of_app; [done|].
    subst c. simpl in Hnull. congruence.
  - intros Hdb'.
    destruct (same_votes_table _ _ _ Hsame Hdb') as (t & Hdb & <- & <-).
    by apply Hinv.
Qed.

(** Whatever the requests, an initialised store never holds a vote whose
    candidate is NULL: the NOT NULL column refuses it. *)
Lemma serve_keeps_not_null rs p :
  no_null_candidate p -> no_null_candidate (serve adapt rs p).1.
Proof.
  apply (serve_keeps adapt no_null_candidate).
  - apply get_results_keeps_all.
  - apply insert_vote_keeps_not_null.
Qed.

Lemma bind_param_str e s x :
  bind_param adapt e (JStr s) = Returns x -> x = Some s.
Proof.
  destruct e; simpl; [by intros [= <-]|].
  destruct (has_nul s); [done|by intros [= <-]].
Qed.

Lemma insert_nonempty_keeps s :
  s <> "" -> preserves no_empty_candidate (insert_vote adapt (JStr s)).
Proof.
  intros Hs p Hinv t'.
  destruct (insert_vote_cases (JStr s) p)
    as [(t & x & i & c & Hdb & _ & Hb & Hc & _ & ->)
       |(x & p' & -> & Hsame & _)]; simpl.
  - rewrite active_db_set, USE_POSTGRES_set. intros [= <-].
    destruct (Hinv t Hdb) as [Hcols Hrows]. split; [done|].
    rewrite candidates_add_row.
    intros k [?|Hlast%list_elem_of_singleton]%elem_of_app; [by apply Hrows|].
    subst k. apply bind_param_str in Hb as ->.
    revert Hc. unfold assign_text. rewrite Hcols.
    destruct (store_text _ _ s) as [s'|] eqn:Hst; [|done].
    intros [= <-]. exists s'. split; [done|].
    by apply (store_text_nonempty _ _ _ _ Hs Hst).
  - intros Hdb'.
    destruct (same_votes_table _ _ _ Hsame Hdb') as (t & Hdb & <- & <-).
    destruct Hsame as [(_ & _ & _ & Hpg & _) _]. rewrite Hpg.
    by apply Hinv.
Qed.

Lemma nonempty_true s : nonempty (Some s) = true -> s <> "".
Proof. simpl. rewrite negb_true_iff. by intros ?%String.eqb_neq. Qed.

(** The two form views test the field before they insert: they keep the
    stored candidates non-empty. *)
Lemma form_views_keep_nonempty r :
  preserves no_empty_candidate (index adapt r) /\
  preserves no_empty_candidate (vote adapt r).
Proof.
  unfold index, vote. split.
  - destruct (method r); auto with keeps.
    destruct (form_get "option" (form r)) as [s|]; auto with keeps.
    destruct (nonempty (Some s)) eqn:Hne; auto with keeps.
    apply preserves_bind; [by apply insert_nonempty_keeps, nonempty_true|].
    intros _. apply preserves_bind; [apply get_results_keeps_all|].
    auto with keeps.
  - destruct (form_get "option" (form r)) as [s|]; auto with keeps.
    destruct (nonempty (Some s)) eqn:Hne; auto with keeps.
    apply preserves_bind; [by apply insert_nonempty_keeps, nonempty_true|].
    intros _. apply preserves_bind; [apply get_results_keeps_all|].
    auto with keeps.
Qed.

End Invariants.

(** ** Worked examples *)

(** Closes [ids_left n p] on a process whose active table is given. *)
Ltac ids_left_by_computation :=
  let t := fresh "t" in
  let Ht := fresh "Ht" in
  intros t Ht; injection Ht as <-; vm_compute;
  split_and!; [discriminate | repeat constructor | discriminate].





(** A body that is not an object and holds the word: the membership
    test passes or raises, the subscript raises. *)
Lemma api_vote_non_object_bodies :
  Forall (fun j =>
    full_dispatch_request sample_adapt (post_json "/api/vote" j)
      (sqlite_process (Some (empty_table sqlite_votes_schema))) =
      (sqlite_process (Some (empty_table sqlite_votes_schema)), Raises TypeError))
    [JInt 5; JBool true; JStr "my option"; JArr [JStr "option"]].
Proof. repeat constructor. Qed.

(** What the stores refuse. psycopg2 does not send a text with a NUL,
    which SQLite stores; a NULL refused by Postgres has used up the id 1;
    SQLite has no ROWID after the largest. *)
Lemma refused_inserts :
  insert_vote sample_adapt (JStr nul_name)
    (postgres_process (Some (empty_table postgres_votes_schema))) =
    (postgres_process (Some (empty_table postgres_votes_schema)),
     Raises ValueError) /\
  (insert_vote sample_adapt (JStr nul_name)
     (sqlite_process (Some (empty_table sqlite_votes_schema)))).2 = Returns tt /\
  insert_vote sample_adapt JNull
    (postgres_process (Some (empty_table postgres_votes_schema))) =
    (postgres_process (Some (burn_id (empty_table postgres_votes_schema))),
     Raises IntegrityError) /\
  insert_vote sample_adapt (JStr "GCP") (sqlite_process (Some full_table)) =
    (sqlite_process (Some full_table), Raises OperationalError).
Proof. repeat split. Qed.

(** /api/results over a table found with a NULL and a text candidate:
    the keys cannot be sorted and the view raises. *)
Lemma results_with_null_key :
  full_dispatch_request sample_adapt (a_request GET "/api/results")
    (sqlite_process (Some found_table)) =
    (sqlite_process (Some found_table), Raises TypeError).
Proof. reflexivity. Qed.

(** C3 at a fresh SQLite table: the empty candidate is stored. *)
Lemma api_vote_stores_empty_candidate_witness :
  exists p1,
    full_dispatch_request sample_adapt
      (post_json "/api/vote" (JObj [("option", JStr "")]))
      (sqlite_process (Some (empty_table sqlite_votes_schema))) =
      (p1, Returns status_ok) /\
    stored (active_db p1) = [Some ""].
Proof.
  apply (api_vote_stores_empty_candidate sample_adapt
    (post_json "/api/vote" (JObj [("option", JStr "")]))
    (sqlite_process (Some (empty_table sqlite_votes_schema)))).
  - reflexivity.
  - reflexivity.
  - intros H. discriminate H.
  - eexists. split; reflexivity.
  - ids_left_by_computation.
  - reflexivity.
Defined.

(** C4 with DB_HOST set and no driver: the import fails and the SQLite
    file is not created. *)
Lemma startup_without_driver_witness :
  bool_of_env (({["DB_HOST" := "db.internal"]} : gmap string string) !! "DB_HOST") = true /\
  exists e,
    startup sample_int {["DB_HOST" := "db.internal"]} false None None =
      Failed e None None /\
    (forall port,
       read_db_port sample_int {["DB_HOST" := "db.internal"]} = Returns port ->
       e = RuntimeError psycopg2_required).
Proof.
  split; [reflexivity|].
  apply (startup_without_driver sample_int {["DB_HOST" := "db.internal"]} None None).
  reflexivity.
Defined.

(** C5 with DB_HOST set and the driver installed. *)
Lemma backend_selected_once_witness :
  startup sample_int {["DB_HOST" := "db.internal"]} true None None =
    Started (postgres_process (Some (empty_table postgres_votes_schema))) /\
  forall rs,
    USE_POSTGRES
      (serve sample_adapt rs
         (postgres_process (Some (empty_table postgres_votes_schema)))).1 = true /\
    votes_db
      (serve sample_adapt rs
         (postgres_process (Some (empty_table postgres_votes_schema)))).1 = None.
Proof.
  assert (Hstart :
    startup sample_int {["DB_HOST" := "db.internal"]} true None None =
      Started (postgres_process (Some (empty_table postgres_votes_schema))))
    by reflexivity.
  split; [exact Hstart|]. intros rs.
  destruct (backend_selected_once sample_adapt sample_int
    {["DB_HOST" := "db.internal"]} true None None
    (postgres_process (Some (empty_table postgres_votes_schema))) Hstart)
    as (_ & _ & Hlater).
  destruct (Hlater rs) as (Hpg & Hother & _).
  split; [exact Hpg|].
  unfold other_db in Hother. rewrite Hpg in Hother. exact Hother.
Defined.

(** C6 on two forms without a usable [option] field. *)
Lemma form_post_without_option_witness :
  full_dispatch_request sample_adapt (post_form "/" [("option", "")])
    (sqlite_process (Some (table_of sqlite_votes_schema ["AWS"]))) =
    (sqlite_process (Some (table_of sqlite_votes_schema ["AWS"])),
     Returns (render_template "index.html" None None)) /\
  full_dispatch_request sample_adapt (post_form "/vote" [("name", "AWS")])
    (sqlite_process (Some (table_of sqlite_votes_schema ["AWS"]))) =
    (sqlite_process (Some (table_of sqlite_votes_schema ["AWS"])),
     Returns (redirect "/")).
Proof.
  split.
  - apply (form_post_without_option sample_adapt
      (post_form "/" [("option", "")]) _ eq_refl eq_refl). reflexivity.
  - apply (form_post_without_option sample_adapt
      (post_form "/vote" [("name", "AWS")]) _ eq_refl eq_refl). reflexivity.
Defined.

(** C7 on a freshly created table. *)
Lemma get_results_no_votes_witness :
  get_results (sqlite_process (Some (empty_table sqlite_votes_schema))) =
    (sqlite_process (Some (empty_table sqlite_votes_schema)), Returns ∅).
Proof.
  apply (get_results_no_votes _ (empty_table sqlite_votes_schema)).
  - intros H. discriminate H.
  - reflexivity.
  - reflexivity.
Defined.

(** C8 on the three read endpoints, over a store with votes. *)
Lemma read_endpoints_pure_witness :
  (full_dispatch_request sample_adapt (a_request GET "/")
     (sqlite_process (Some (table_of sqlite_votes_schema ["AWS"; "GCP"])))).1 =
    sqlite_process (Some (table_of sqlite_votes_schema ["AWS"; "GCP"])) /\
  (full_dispatch_request sample_adapt (a_request GET "/api/results")
     (sqlite_process (Some (table_of sqlite_votes_schema ["AWS"; "GCP"])))).1 =
    sqlite_process (Some (table_of sqlite_votes_schema ["AWS"; "GCP"])) /\
  (full_dispatch_request sample_adapt (a_request GET "/health")
     (sqlite_process (Some (table_of sqlite_votes_schema ["AWS"; "GCP"])))).1 =
    sqlite_process (Some (table_of sqlite_votes_schema ["AWS"; "GCP"])).
Proof.
  split; [|split].
  - apply (read_endpoints_pure sample_adapt (a_request GET "/")). reflexivity.
  - apply (read_endpoints_pure sample_adapt (a_request GET "/api/results")).
    reflexivity.
  - apply (read_endpoints_pure sample_adapt (a_request GET "/health")).
    reflexivity.
Defined.

(** C9 on a store that already holds votes. *)
Lemma initialize_idempotent_witness :
  initialize (sqlite_process (Some (table_of sqlite_votes_schema ["AWS"; "GCP"]))) =
    (sqlite_process (Some (table_of sqlite_votes_schema ["AWS"; "GCP"])), Returns tt) /\
  initialize (initialize (postgres_process None)).1 =
    ((initialize (postgres_process None)).1, (initialize (postgres_process None)).2).
Proof.
  destruct initialize_idempotent as (_ & _ & Htwice & Hsame & _). split.
  - apply Hsame.
    + intros H. discriminate H.
    + by eexists.
  - apply Htwice.
Defined.

(** C10 on three votes for two candidates. *)
Lemma get_results_counts_positive_witness :
  exists m,
    get_results (sqlite_process (Some (table_of sqlite_votes_schema ["AWS"; "GCP"; "AWS"]))) =
      (sqlite_process (Some (table_of sqlite_votes_schema ["AWS"; "GCP"; "AWS"])),
       Returns m) /\
    (forall k n, m !! k = Some n ->
       1 <= n /\ n = votes_for k [Some "AWS"; Some "GCP"; Some "AWS"]) /\
    dom m = list_to_set [Some "AWS"; Some "GCP"; Some "AWS"].
Proof.
  apply (get_results_counts_positive
    (sqlite_process (Some (table_of sqlite_votes_schema ["AWS"; "GCP"; "AWS"])))
    (table_of sqlite_votes_schema ["AWS"; "GCP"; "AWS"])).
  - intros H. discriminate H.
  - reflexivity.
Defined.

(** ** What one request does to the store *)

Section Effects.

Variable adapt : engine -> json -> option string.

Lemma get_results_table p t :
  driver_ready p -> active_db p = Some t ->
  get_results p =
    (p, Returns (dict_of_rows (group_by_count (candidate <$> rows t)))).
Proof. intros Hd Hdb. by rewrite get_results_run, Hdb. Qed.

Lemma unchanged_effect p o :
  vote_recorded o = false -> effect_of_request p p o.
Proof. intros Ho. left. split_and!; [apply same_votes_refl|done|done]. Qed.

(** Insert, then read: what the two form views run for an option. *)
Lemma record_and_show_effect s p :
  effect_of_request p
    (bind (insert_vote adapt (JStr s)) (fun _ =>
       bind get_results (fun results =>
         ret (render_template "result.html" (Some s) (Some results)))) p).1
    (bind (insert_vote adapt (JStr s)) (fun _ =>
       bind get_results (fun results =>
         ret (render_template "result.html" (Some s) (Some results)))) p).2.
Proof.
  unfold bind at 1 3.
  destruct (insert_vote_cases adapt (JStr s) p)
    as [(t & x & i & c & Hdb & Hd & _ & _ & _ & ->)
       |(x & p' & -> & Hsame & Hsqlite)]; [|by left].
  right. exists t, i, c. unfold bind.
  rewrite (get_results_table _ (add_row t i c)); simpl;
    [done|by apply driver_ready_set|by rewrite active_db_set].
Qed.

Lemma index_effect r p :
  effect_of_request p (index adapt r p).1 (index adapt r p).2.
Proof.
  unfold index. destruct (method r); try (by apply unchanged_effect).
  destruct (form_get "option" (form r)) as [s|]; [|by apply unchanged_effect].
  destruct (nonempty (Some s)); [|by apply unchanged_effect].
  apply record_and_show_effect.
Qed.

Lemma vote_effect r p :
  effect_of_request p (vote adapt r p).1 (vote adapt r p).2.
Proof.
  unfold vote.
  destruct (form_get "option" (form r)) as [s|]; [|by apply unchanged_effect].
  destruct (nonempty (Some s)); [|by apply unchanged_effect].
  apply record_and_show_effect.
Qed.

Lemma api_vote_effect r p :
  effect_of_request p (api_vote adapt r p).1 (api_vote adapt r p).2.
Proof.
  unfold api_vote.
  destruct (negb (truthy (get_json_silent r))); [by apply unchanged_effect|].
  unfold bind, lift.
  destruct (py_contains "option" (get_json_silent r)) as [has|e];
    [|by apply unchanged_effect].
  destruct (negb has); [by apply unchanged_effect|].
  destruct (py_getitem (get_json_silent r) "option") as [v|e];
    [|by apply unchanged_effect].
  destruct (insert_vote_cases adapt v p)
    as [(t & x & i & c & Hdb & Hd & _ & _ & _ & ->)
       |(x & p' & -> & Hsame & Hsqlite)]; [|by left].
  right. by exists t, i, c.
Qed.

Lemma jsonify_results_not_recorded m : vote_recorded (jsonify_results m) = false.
Proof. unfold jsonify_results. by destruct (_ && _). Qed.

Lemma api_results_effect r p :
  effect_of_request p (api_results r p).1 (api_results r p).2.
Proof.
  unfold api_results, bind, lift. pose proof (get_results_pure p) as Hp.
  destruct (get_results p) as [p' [m|e]]; simpl in Hp; subst p'; simpl;
    apply unchanged_effect; [apply jsonify_results_not_recorded|done].
Qed.

Lemma request_effect r p :
  effect_of_request p (full_dispatch_request adapt r p).1
    (full_dispatch_request adapt r p).2.
Proof.
  unfold full_dispatch_request.
  repeat match goal with
         | |- context [if ?b then _ else _] => destruct b
         end;
    destruct (method r);
    first [ apply index_effect | apply vote_effect | apply api_vote_effect
          | apply api_results_effect | by apply unchanged_effect ].
Qed.

End Effects.

(** ** Further properties of the views *)

Section ViewProperties.

Variable adapt : engine -> json -> option string.

Lemma vote_recorded_status o : vote_recorded o = true -> http_status o = 200.
Proof.
  destruct o as [[name so res|loc|ms st|res st|txt st|f|al| |]|e]; simpl;
    try discriminate; [done|]. by intros ?%Z.eqb_eq.
Qed.

(** X1. The answer tells what happened to the store. When a request is
    answered with the result page or with the 200 of the JSON view,
    exactly one row was appended to the votes table of the selected store
    and nothing else changed. On any other answer (form page, redirect,
    400, 404, 405, an exception) the globals, the unselected store and
    the columns and rows of the selected store are as before: on SQLite
    the whole process is, on Postgres a refused insert may have used up
    a value of the id sequence. *)
Theorem response_tells_effect (r : request) (p : process) :
  if vote_recorded (full_dispatch_request adapt r p).2
  then exists t i c, active_db p = Some t /\
         (full_dispatch_request adapt r p).1 =
           set_active_db (Some (add_row t i c)) p
  else same_votes p (full_dispatch_request adapt r p).1 /\
       (USE_POSTGRES p = false -> (full_dispatch_request adapt r p).1 = p).
Proof.
  destruct (request_effect adapt r p)
    as [(Hsame & Hsqlite & Hv)|(t & i & c & Hdb & _ & Hp & Hv)];
    rewrite Hv; [done|]. by exists t, i, c.
Qed.

(** X2. A request that is not answered 200 stores nothing: whenever the
    status is another one (302, 400, 404, 405, or the 500 of an exception
    that left the view) the globals, the unselected store and the columns
    and rows of the selected store are unchanged, and on SQLite so is the
    whole process. *)
Theorem unanswered_request_changes_nothing (r : request) (p : process) :
  http_status (full_dispatch_request adapt r p).2 <> 200 ->
  same_votes p (full_dispatch_request adapt r p).1 /\
  (USE_POSTGRES p = false -> (full_dispatch_request adapt r p).1 = p).
Proof.
  intros Hst.
  destruct (request_effect adapt r p)
    as [(Hsame & Hsqlite & _)|(t & i & c & _ & _ & _ & Hv)]; [done|].
  by apply vote_recorded_status in Hv.
Qed.

(** X3. The votes table is append-only and no request creates or drops
    it. After any sequence of requests a table that existed still has
    its columns and its former rows, in order, followed by at most one
    new row per request; a missing table is still missing. *)
Theorem votes_append_only (rs : list request) (p : process) :
  match active_db p with
  | Some t =>
      exists t' extra,
        active_db (serve adapt rs p).1 = Some t' /\
        columns t' = columns t /\
        rows t' = rows t ++ extra /\
        (length extra <= length rs)%nat
  | None => active_db (serve adapt rs p).1 = None
  end.
Proof.
  revert p. induction rs as [|r rs IH]; intros p.
  - simpl. destruct (active_db p) as [t|]; [|done].
    exists t, []. by rewrite app_nil_r.
  - simpl. pose proof (request_effect adapt r p) as Heff.
    destruct (full_dispatch_request adapt r p) as [p1 o]. simpl in Heff.
    specialize (IH p1). destruct (serve adapt rs p1) as [p2 os]. simpl in *.
    destruct Heff as [([_ Hvotes] & _ & _)|(t & i & c & Hdb & _ & -> & _)].
    + destruct (active_db p) as [t|], (active_db p1) as [t1|];
        simpl in Hvotes; try done.
      injection Hvotes as Hcols Hrows.
      destruct IH as (t' & extra & ? & ? & ? & ?).
      exists t', extra. split_and!; [done|congruence|congruence|lia].
    + rewrite Hdb. rewrite active_db_set in IH.
      destruct IH as (t' & extra & Hdb' & Hcols & Hrows & Hlen).
      exists t', ({| id := i; candidate := c |} :: extra).
      split_and!; [done|done| |simpl; lia].
      rewrite Hrows. simpl. by rewrite <- app_assoc.
Qed.

Lemma stored_no_null p :
  no_null_candidate p -> None ∉ stored (active_db p).
Proof.
  intros Hinv. unfold stored. destruct (active_db p) as [t|] eqn:Hdb.
  - by apply (Hinv t).
  - apply not_elem_of_nil.
Qed.

(** X4. On a store whose table has the columns of its initialiser,
    which declare the candidate NOT NULL, no sequence of requests ever
    leaves a vote with a NULL candidate: the keys of the results are all
    texts. *)
Theorem stored_candidates_never_null (rs : list request) (p : process) :
  initialised p -> None ∉ stored (active_db p) ->
  None ∉ stored (active_db (serve adapt rs p).1).
Proof.
  intros (t & Hdb & Hcols) Hnone. apply stored_no_null.
  apply serve_keeps_not_null. intros t' Ht'.
  rewrite Hdb in Ht'. injection Ht' as <-. split.
  - rewrite Hcols. by destruct (USE_POSTGRES p).
  - by rewrite Hdb in Hnone.
Qed.

Lemma form_request_keeps_nonempty r :
  path r <> "/api/vote" ->
  preserves no_empty_candidate (full_dispatch_request adapt r).
Proof.
  intros Hpath. unfold full_dispatch_request.
  destruct (form_views_keep_nonempty adapt r) as [Hindex Hvote].
  destruct (String.eqb (path r) "/"); [destruct (method r); auto with keeps|].
  destruct (String.eqb (path r) "/vote"); [destruct (method r); auto with keeps|].
  destruct (String.eqb_spec (path r) "/api/vote") as [|_]; [done|].
  pose proof (api_results_keeps no_empty_candidate
    (get_results_keeps_all no_empty_candidate) r) as Hres.
  destruct (String.eqb (path r) "/api/results");
    [destruct (method r); auto with keeps|].
  destruct (String.eqb (path r) "/health");
    [destruct (method r); unfold health; auto with keeps|].
  destruct (_ && _); [destruct (method r); auto with keeps|auto with keeps].
Qed.

(** X5. As long as no request goes to /api/vote, the stored candidates
    stay non-empty texts: the form views and the read endpoints keep the
    invariant that every vote of an initialised table names a candidate
    other than the empty string. *)
Theorem form_traffic_keeps_candidates_nonempty (rs : list request) (p : process) :
  Forall (fun r => path r <> "/api/vote") rs ->
  no_empty_candidate p ->
  no_empty_candidate (serve adapt rs p).1.
Proof.
  intros Hrs. revert p. induction Hrs as [|r rs Hr _ IH]; intros p Hinv; [done|].
  simpl. pose proof (form_request_keeps_nonempty r Hr p Hinv) as H1.
  destruct (full_dispatch_request adapt r p) as [p1 o]. simpl in H1.
  specialize (IH p1 H1). by destruct (serve adapt rs p1).
Qed.

End ViewProperties.

(** ** Further properties of the counts *)

Section CountProperties.

Implicit Types (k c : option string) (l : list (option string)).

Lemma total_votes_insert (m : gmap (option string) Z) k n :
  total_votes (<[k := n]> m) = n + total_votes m - count_in m k.
Proof.
  assert (Hcomm : forall (m' : gmap (option string) Z) j1 j2 z1 z2 y,
    j1 <> j2 -> m' !! j1 = Some z1 -> m' !! j2 = Some z2 ->
    z1 + (z2 + y) = z2 + (z1 + y)) by (intros; lia).
  unfold total_votes, count_in. destruct (m !! k) as [x|] eqn:Hk; simpl.
  - rewrite <- insert_delete_eq.
    rewrite map_fold_insert_L; [|by apply Hcomm|apply lookup_delete_eq].
    rewrite (map_fold_delete_L _ _ k x m); [lia|by apply Hcomm|done].
  - rewrite map_fold_insert_L; [lia|by apply Hcomm|done].
Qed.

Lemma dict_counts_snoc l c :
  dict_of_rows (group_by_count (l ++ [c])) =
    <[c := count_in (dict_of_rows (group_by_count l)) c + 1]>
      (dict_of_rows (group_by_count l)).
Proof.
  apply map_eq. intros k. destruct (decide (k = c)) as [->|Hne].
  - by rewrite lookup_insert_eq, lookup_counts_snoc_same.
  - by rewrite lookup_insert_ne, lookup_counts_snoc_other.
Qed.

Lemma total_votes_counts l :
  total_votes (dict_of_rows (group_by_count l)) = Z.of_nat (length l).
Proof.
  induction l as [|c l IH] using rev_ind; [reflexivity|].
  rewrite dict_counts_snoc, total_votes_insert, IH, length_app. simpl. lia.
Qed.

(** X6. The counts returned by [get_results] add up to the number of
    stored votes: no vote is lost and none is counted twice. *)
Theorem results_add_up (p : process) (t : table) :
  driver_ready p -> active_db p = Some t ->
  exists m, get_results p = (p, Returns m) /\
    total_votes m = Z.of_nat (length (rows t)).
Proof.
  intros Hd Hdb. eexists. split.
  - by rewrite get_results_run, Hdb, fetch_counts_table.
  - by rewrite total_votes_counts, length_fmap.
Qed.

Lemma votes_for_Permutation k l l' : l ≡ₚ l' -> votes_for k l = votes_for k l'.
Proof. intros Hperm. unfold votes_for. by rewrite Hperm. Qed.

(** X7. The result of the query depends on how many votes each
    candidate has, not on the order in which they were cast: two tables
    whose candidate columns are permutations of each other give the
    same mapping. *)
Theorem results_ignore_order (t t' : table) :
  candidate <$> rows t ≡ₚ candidate <$> rows t' ->
  fetch_counts (Some t) = fetch_counts (Some t').
Proof.
  intros Hperm. rewrite !fetch_counts_table. f_equal.
  apply map_eq. intros k. rewrite !lookup_counts.
  rewrite (votes_for_Permutation k _ _ Hperm).
  destruct (decide (k ∈ candidate <$> rows t)) as [Hin|Hnin];
    destruct (decide (k ∈ candidate <$> rows t')) as [Hin'|Hnin']; try done.
  - rewrite Hperm in Hin. done.
  - rewrite <- Hperm in Hin'. done.
Qed.

End CountProperties.

(** ** Further properties of the vote submissions *)

Section Submissions.

Variable adapt : engine -> json -> option string.






Lemma jsonify_results_no_null (m : gmap (option string) Z) :
  m !! None = None -> jsonify_results m = Returns (jsonify_counts m 200).
Proof.
  intros Hnone. unfold jsonify_results. rewrite Hnone.
  rewrite bool_decide_eq_false_2; [done|]. by intros [? ?].
Qed.

Lemma counts_no_null l :
  None ∉ l -> dict_of_rows (group_by_count l) !! None = None.
Proof. intros Hl. rewrite lookup_counts. by rewrite decide_False. Qed.


(** X9. The legacy endpoint does what the form page does: for two POST
    requests with the same form and a non-empty option, one to / and one
    to /vote, the new state and the response are the same. *)
Theorem legacy_vote_same_as_index (r1 r2 : request) (p : process) :
  method r1 = POST -> method r2 = POST ->
  path r1 = "/" -> path r2 = "/vote" -> form r1 = form r2 ->
  nonempty (form_get "option" (form r1)) = true ->
  full_dispatch_request adapt r1 p = full_dispatch_request adapt r2 p.
Proof.
  intros Hm1 Hm2 Hp1 Hp2 Hform Hne.
  unfold full_dispatch_request, index, vote.
  rewrite Hp1, Hp2. simpl. rewrite Hm1, Hm2, <- Hform.
  destruct (form_get "option" (form r1)) as [s|]; [|done].
  by rewrite Hne.
Qed.




(** X12. A body that parses as JSON but is not an object never records
    a vote: the process is unchanged and the answer is the 400 of a
    missing option or a TypeError that leaves the view (the membership
    test on a number or a boolean, the subscript on a string or a list
    that holds the word). A body whose truth value is false ([0],
    [false], the empty string, the empty list) always gets the 400. *)
Theorem non_object_body_not_recorded (r : request) (p : process) (j : json) :
  method r = POST -> path r = "/api/vote" ->
  body_json r = Some j -> is_object j = false ->
  (full_dispatch_request adapt r p).1 = p /\
  ((full_dispatch_request adapt r p).2 = Returns option_required \/
   (full_dispatch_request adapt r p).2 = Raises TypeError) /\
  (truthy j = false ->
   (full_dispatch_request adapt r p).2 = Returns option_required).
Proof.
  intros Hm Hp Hbody Hobj. rewrite (dispatch_api_vote adapt r Hm Hp).
  unfold api_vote, get_json_silent. rewrite Hbody.
  destruct (truthy j) eqn:Htruthy; simpl; [|by split_and!; [|left|]].
  unfold bind, lift.
  destruct j as [|b|z|q|s|items|members]; simpl in *; try discriminate;
    try (by split_and!; [|right|]).
  - destruct (is_substring "option" s); simpl; by split_and!; [|auto|].
  - destruct (existsb (is_str "option") items); simpl; by split_and!; [|auto|].
Qed.

End Submissions.

(** ** Further properties of start-up *)

Section StartupProperties.

Variable adapt : engine -> json -> option string.
Variable py_int : string -> option Z.

(** The module body in closed form. *)
Lemma startup_result environ drv sq pg :
  startup py_int environ drv sq pg =
    match read_db_port py_int environ with
    | Raises e => Failed e sq pg
    | Returns port =>
        if bool_of_env (environ !! "DB_HOST") && negb drv
        then Failed (RuntimeError psycopg2_required) sq pg
        else Started (started_process environ drv port sq pg)
    end.
Proof.
  unfold startup, started_process.
  destruct (read_db_port py_int environ) as [port|e]; [|done].
  rewrite initialize_run; simpl.
  destruct (bool_of_env (environ !! "DB_HOST")), drv; by simpl.
Qed.

(** X13. A DB_PORT that is set, not empty and not an integer stops the
    import with a ValueError, whichever store DB_HOST selects and whether
    or not the driver is installed; no table is created. *)
Theorem startup_malformed_port (environ : gmap string string) (drv : bool)
    (sq pg : database) (s : string) :
  environ !! "DB_PORT" = Some s -> s <> "" -> py_int s = None ->
  startup py_int environ drv sq pg = Failed ValueError sq pg.
Proof.
  intros Hport Hs Hint. rewrite startup_result. unfold read_db_port.
  rewrite Hport; simpl. apply String.eqb_neq in Hs. by rewrite Hs, Hint.
Qed.

(** X14. Start-up succeeds exactly when DB_PORT is unset, empty or an
    integer and, if DB_HOST is set and not empty, the driver is
    installed. The started process then holds the values read from the
    environment, the selected store has its votes table (created empty
    when it was missing, left as found otherwise) and the other store is
    as found. *)
Theorem startup_succeeds_exactly (environ : gmap string string) (drv : bool)
    (sq pg : database) (p : process) :
  startup py_int environ drv sq pg = Started p <->
  exists port,
    read_db_port py_int environ = Returns port /\
    (bool_of_env (environ !! "DB_HOST") = true -> drv = true) /\
    p = started_process environ drv port sq pg.
Proof.
  rewrite startup_result.
  destruct (read_db_port py_int environ) as [port|e].
  - destruct (bool_of_env (environ !! "DB_HOST")), drv; simpl; split;
      try (by intros [= <-]; exists port);
      try (by intros (port' & [= <-] & _ & ->));
      try done.
    intros (port' & _ & Hdrv & _). by specialize (Hdrv eq_refl).
  - split; [done|]. by intros (port & ? & _).
Qed.

Lemma insert_vote_keeps_table v :
  preserves (fun q => is_Some (active_db q)) (insert_vote adapt v).
Proof.
  intros p [t0 Hp].
  destruct (insert_vote_cases adapt v p)
    as [(t & x & i & c & _ & _ & _ & _ & _ & ->)|(x & p' & -> & Hsame & _)];
    simpl.
  - rewrite active_db_set. by eexists.
  - destruct Hsame as [_ Hvotes]. rewrite Hp in Hvotes.
    destruct (active_db p') as [t'|]; [by eexists|done].
Qed.

Lemma serve_keeps_table rs p :
  is_Some (active_db p) -> is_Some (active_db (serve adapt rs p).1).
Proof.
  apply (serve_keeps adapt (fun q => is_Some (active_db q))).
  - apply get_results_keeps_all.
  - apply insert_vote_keeps_table.
Qed.

(** X15. Once the process has started over a selected store whose
    votes table, if it found one, declares the candidate NOT NULL and
    holds no NULL candidate, /api/results never fails: after any sequence
    of requests a GET is answered 200 with the counts of the votes stored
    at that time. *)
Theorem started_process_serves_results (environ : gmap string string)
    (drv : bool) (sq pg : database) (p : process) (rs : list request) :
  startup py_int environ drv sq pg = Started p ->
  no_null_candidate p ->
  exists t,
    active_db (serve adapt rs p).1 = Some t /\
    full_dispatch_request adapt (a_request GET "/api/results")
      (serve adapt rs p).1 =
      ((serve adapt rs p).1,
       Returns (jsonify_counts
         (dict_of_rows (group_by_count (candidate <$> rows t))) 200)).
Proof.
  intros Hstart Hnn.
  destruct (startup_started py_int _ _ _ _ _ Hstart) as (_ & Hd & Htable).
  destruct (serve_keeps_table rs p Htable) as [t Hdb].
  assert (Hd' : driver_ready (serve adapt rs p).1).
  { eapply same_selection_driver_ready; [apply serve_same_selection|done]. }
  pose proof (stored_no_null _ (serve_keeps_not_null adapt rs p Hnn)) as Hnone.
  rewrite Hdb in Hnone. simpl in Hnone.
  exists t. split; [done|].
  unfold full_dispatch_request, api_results, bind, lift; simpl.
  rewrite (get_results_table _ t Hd' Hdb).
  by rewrite (jsonify_results_no_null _ (counts_no_null _ Hnone)).
Qed.

(** X16. Restarting keeps the votes. When the process that served any
    sequence of requests is stopped and started again in the same
    environment over the stores it left, start-up succeeds and gives the
    very state that was left: all rows and the id sequence are as the
    previous run left them. *)
Theorem restart_keeps_votes (environ : gmap string string) (drv : bool)
    (sq pg : database) (p : process) (rs : list request) :
  startup py_int environ drv sq pg = Started p ->
  startup py_int environ drv
    (votes_db (serve adapt rs p).1) (postgres_db (serve adapt rs p).1) =
    Started (serve adapt rs p).1.
Proof.
  intros Hstart.
  destruct (startup_started py_int _ _ _ _ _ Hstart) as (_ & _ & Htable).
  pose proof (serve_keeps_table rs p Htable) as [t Hdb].
  pose proof (serve_same_selection adapt rs p)
    as (Hdrv & Hhost & Hport & Hpg & _).
  revert Hstart. rewrite !startup_result.
  destruct (read_db_port py_int environ) as [port|e]; [|done].
  destruct (bool_of_env (environ !! "DB_HOST") && negb drv); [done|].
  intros [= <-]. f_equal.
  destruct (serve adapt rs (started_process environ drv port sq pg)).1
    as [drv' host' port' pg' sq' pgdb'].
  unfold started_process, active_db in *. simpl in *. subst.
  destruct (bool_of_env (environ !! "DB_HOST")); simpl in *; by subst.
Qed.

End StartupProperties.

(** ** Further worked examples *)

(** X2 on a vote that the NOT NULL column of Postgres refuses. *)
Lemma unanswered_request_changes_nothing_witness :
  same_votes (postgres_process (Some (table_of postgres_votes_schema ["AWS"])))
    (full_dispatch_request sample_adapt
       (post_json "/api/vote" (JObj [("option", JNull)]))
       (postgres_process (Some (table_of postgres_votes_schema ["AWS"])))).1.
Proof.
  apply (unanswered_request_changes_nothing sample_adapt).
  intros H. vm_compute in H. discriminate H.
Defined.

(** X4 on a null vote followed by a form vote. *)
Lemma stored_candidates_never_null_witness :
  None ∉ stored (active_db (serve sample_adapt
    [post_json "/api/vote" (JObj [("option", JNull)]);
     post_form "/" [("option", "GCP")]]
    (sqlite_process (Some (table_of sqlite_votes_schema ["AWS"])))).1).
Proof.
  apply (stored_candidates_never_null sample_adapt).
  - eexists. split; reflexivity.
  - simpl. apply not_elem_of_cons. split; [discriminate|apply not_elem_of_nil].
Defined.

(** X5 on an empty option, a legacy vote and a health check. *)
Lemma form_traffic_keeps_candidates_nonempty_witness :
  no_empty_candidate (serve sample_adapt
    [post_form "/" [("option", "")]; post_form "/vote" [("option", "GCP")];
     a_request GET "/health"]
    (sqlite_process (Some (table_of sqlite_votes_schema ["AWS"])))).1.
Proof.
  apply (form_traffic_keeps_candidates_nonempty sample_adapt).
  - repeat (apply Forall_cons; split; [discriminate|]). apply Forall_nil_2.
  - intros t Ht. injection Ht as <-. split; [reflexivity|].
    intros c Hc. simpl in Hc. apply list_elem_of_singleton in Hc.
    exists "AWS". split; [exact Hc|discriminate].
Defined.

(** X6 on three votes. *)
Lemma results_add_up_witness :
  exists m,
    get_results (sqlite_process (Some (table_of sqlite_votes_schema ["AWS"; "GCP"; "AWS"]))) =
      (sqlite_process (Some (table_of sqlite_votes_schema ["AWS"; "GCP"; "AWS"])),
       Returns m) /\
    total_votes m = 3.
Proof.
  apply (results_add_up
    (sqlite_process (Some (table_of sqlite_votes_schema ["AWS"; "GCP"; "AWS"])))
    (table_of sqlite_votes_schema ["AWS"; "GCP"; "AWS"])).
  - intros H. discriminate H.
  - reflexivity.
Defined.

(** X7 on the same two votes cast in either order. *)
Lemma results_ignore_order_witness :
  fetch_counts (Some (table_of sqlite_votes_schema ["AWS"; "GCP"])) =
  fetch_counts (Some (table_of sqlite_votes_schema ["GCP"; "AWS"])).
Proof.
  apply results_ignore_order. simpl. apply perm_swap.
Defined.


(** X9 on a vote for GCP sent to either form endpoint. *)
Lemma legacy_vote_same_as_index_witness :
  full_dispatch_request sample_adapt (post_form "/" [("option", "GCP")])
    (sqlite_process (Some (table_of sqlite_votes_schema ["AWS"]))) =
  full_dispatch_request sample_adapt (post_form "/vote" [("option", "GCP")])
    (sqlite_process (Some (table_of sqlite_votes_schema ["AWS"]))).
Proof.
  apply (legacy_vote_same_as_index sample_adapt); reflexivity.
Defined.



(** X12 on a string body that holds the word. *)
Lemma non_object_body_not_recorded_witness :
  (full_dispatch_request sample_adapt (post_json "/api/vote" (JStr "my option"))
     (sqlite_process (Some (empty_table sqlite_votes_schema)))).1 =
    sqlite_process (Some (empty_table sqlite_votes_schema)) /\
  (full_dispatch_request sample_adapt (post_json "/api/vote" (JStr "my option"))
     (sqlite_process (Some (empty_table sqlite_votes_schema)))).2 =
    Raises TypeError.
Proof.
  destruct (non_object_body_not_recorded sample_adapt
    (post_json "/api/vote" (JStr "my option"))
    (sqlite_process (Some (empty_table sqlite_votes_schema)))
    (JStr "my option") eq_refl eq_refl eq_refl eq_refl) as (Hp & _ & _).
  split; [exact Hp|reflexivity].
Defined.

(** X13 on DB_PORT=abc with the SQLite file selected. *)
Lemma startup_malformed_port_witness :
  startup sample_int {["DB_PORT" := "abc"]} true None None =
    Failed ValueError None None.
Proof.
  apply (startup_malformed_port sample_int {["DB_PORT" := "abc"]} true
    None None "abc").
  - reflexivity.
  - discriminate.
  - reflexivity.
Defined.

(** X15 after one vote, from an empty environment. *)
Lemma started_process_serves_results_witness :
  exists t,
    active_db (serve sample_adapt [vote_json "AWS"]
      (sqlite_process (Some (empty_table sqlite_votes_schema)))).1 = Some t /\
    full_dispatch_request sample_adapt (a_request GET "/api/results")
      (serve sample_adapt [vote_json "AWS"]
         (sqlite_process (Some (empty_table sqlite_votes_schema)))).1 =
      ((serve sample_adapt [vote_json "AWS"]
          (sqlite_process (Some (empty_table sqlite_votes_schema)))).1,
       Returns (jsonify_counts
         (dict_of_rows (group_by_count (candidate <$> rows t))) 200)).
Proof.
  assert (Hstart : startup sample_int ∅ false None None =
    Started (sqlite_process (Some (empty_table sqlite_votes_schema))))
    by reflexivity.
  apply (started_process_serves_results sample_adapt sample_int ∅ false
    None None _ [vote_json "AWS"] Hstart).
  intros t Ht. injection Ht as <-. split; [reflexivity|apply not_elem_of_nil].
Defined.

(** X16 after one vote, from an empty environment. *)
Lemma restart_keeps_votes_witness :
  startup sample_int ∅ false
    (votes_db (serve sample_adapt [vote_json "AWS"]
       (sqlite_process (Some (empty_table sqlite_votes_schema)))).1)
    (postgres_db (serve sample_adapt [vote_json "AWS"]
       (sqlite_process (Some (empty_table sqlite_votes_schema)))).1) =
    Started (serve sample_adapt [vote_json "AWS"]
       (sqlite_process (Some (empty_table sqlite_votes_schema)))).1.
Proof.
  assert (Hstart : startup sample_int ∅ false None None =
    Started (sqlite_process (Some (empty_table sqlite_votes_schema))))
    by reflexivity.
  exact (restart_keeps_votes sample_adapt sample_int ∅ false
    None None _ [vote_json "AWS"] Hstart).
Defined.
